(** * The MCP tool bridge of [mcp_client/base.py]

    A shallow embedding of the bridge between MCP providers and LangChain
    tools: launch descriptors built from the configuration, discovery of
    the operations a provider lists, the adapter built for each of them and
    the call it performs through a fresh stdio session.

    Python's exceptions are an explicit [outcome]; the provider processes
    and sessions the code opens and closes are recorded in a [trace] that
    every coroutine threads through.  The libraries the module imports
    ([mcp], [jsonschema_pydantic], the provider processes themselves) are
    not part of the repository: their answers are parameters of the
    development. *)

From Stdlib Require Import QArith.
From stdpp Require Import gmap strings list fin_maps.

Set Warnings "-register-all".

Section Bridge.

(** [Schema] is what a tool's [inputSchema] holds, [Kwargs] what a call
    passes as keyword arguments and [Content] what a call result carries. *)
Context {Schema Kwargs Content : Type}.

(** ** Exceptions and outcomes *)

(** A validation failure names every offending field with the reason. *)
Definition violations : Type := list (string * string).

Inductive exn : Type :=
  | NotImplementedError (msg : string)
  | ToolException (content : Content)
  | ValidationError (errors : violations)
  | FileNotFoundError (msg : string)
  | ConversionError (construct : string)
  | LibraryError (detail : string)
  | ExceptionGroup (message : string) (exceptions : list exn).

Inductive outcome (A : Type) : Type :=
  | Return (a : A)
  | Raise (e : exn).
Global Arguments Return {A} a.
Global Arguments Raise {A} e.

Definition is_return {A} (o : outcome A) : bool :=
  match o with Return _ => true | Raise _ => false end.

(** ** Launch descriptors *)

(** [mcp.StdioServerParameters]: every value of [env] is a string. *)
Record StdioServerParameters : Type := {
  command : string;
  args : list string;
  env : gmap string string
}.

(** ** Processes and sessions *)

(** An event records a call the module makes on the [mcp] library that
    returned normally, or the library leaving one of the two context
    managers.  What the library does on its own inside such a call is not
    part of the trace. *)
Inductive event : Type :=
  | ProcessSpawned (p : StdioServerParameters)
  | ProcessTerminated (p : StdioServerParameters)
  | SessionEntered (p : StdioServerParameters)
  | SessionExited (p : StdioServerParameters)
  | Initialized (p : StdioServerParameters)
  | ToolsListed (p : StdioServerParameters)
  | ToolCalled (p : StdioServerParameters) (name : string) (arguments : Kwargs).

(** The newest event is at the head. *)
Definition trace : Type := list event.

(** A coroutine: runs from a trace, ends with a value or an exception. *)
Definition M (A : Type) : Type := trace → outcome A * trace.

Global Instance M_ret : MRet M := λ A a w, (Return a, w).

Global Instance M_bind : MBind M := λ A B f m w,
  match m w with
  | (Return a, w') => f a w'
  | (Raise e, w') => (Raise e, w')
  end.

Definition raise {A} (e : exn) : M A := λ w, (Raise e, w).

Definition emit (ev : event) : M unit := λ w, (Return (), ev :: w).

(** A synchronous call made from a coroutine. *)
Definition lift {A} (o : outcome A) : M A := λ w, (o, w).

(** [async with cm as x: body]: when [__aenter__] raises nothing was
    acquired and the exception propagates; otherwise [__aexit__] runs
    whichever way the body ends and is told the exception of the body, if
    any.  What leaves the block is the exception [__aexit__] raises when
    it raises one, and the outcome of the body otherwise. *)
Record AsyncContextManager (A : Type) : Type := {
  aenter : M A;
  aexit : option exn → M unit
}.
Global Arguments aenter {A} _.
Global Arguments aexit {A} _.

Definition async_with {A B} (cm : AsyncContextManager A) (body : A → M B) : M B :=
  λ w,
    match aenter cm w with
    | (Raise e, w1) => (Raise e, w1)
    | (Return x, w1) =>
        let '(r, w2) := body x w1 in
        let raised := match r with Return _ => None | Raise e => Some e end in
        match aexit cm raised w2 with
        | (Raise e, w3) => (Raise e, w3)
        | (Return _, w3) => (r, w3)
        end
    end.

(** [for x in xs: acc = body(acc, x)] *)
Fixpoint for_each {A S} (body : S → A → M S) (xs : list A) (acc : S) : M S :=
  match xs with
  | [] => mret acc
  | x :: xs' => acc' ← body acc x; for_each body xs' acc'
  end.

(** ** What the providers and the [mcp] library answer *)

(** [mcp.types.Tool] *)
Record Tool : Type := {
  tool_name : string;
  tool_description : string;
  inputSchema : Schema
}.

(** [mcp.types.CallToolResult] *)
Record CallToolResult : Type := {
  content : Content;
  isError : bool
}.

(** Each answer may depend on the descriptor and on everything that has
    happened so far.  [None] stands for a call that returns normally.
    Leaving a context manager releases what it holds; when its body
    raised, the exit raises what the library makes of that exception
    ([channel_exit_raises] for [stdio_client], [session_exit_raises] for
    [ClientSession]): both run their body in a task group, whose exit
    raises the exception of the body inside an exception group. *)
Record Transport : Type := {
  spawn_fault : StdioServerParameters → trace → option exn;
  enter_fault : StdioServerParameters → trace → option exn;
  initialize_fault : StdioServerParameters → trace → option exn;
  list_tools_answer : StdioServerParameters → trace → outcome (list Tool);
  call_tool_answer :
    StdioServerParameters → trace → string → Kwargs → outcome CallToolResult;
  channel_exit_raises : exn → exn;
  session_exit_raises : exn → exn
}.

Variable transport : Transport.

Definition guarded (fault : option exn) (ev : event) : M unit :=
  match fault with
  | Some e => raise e
  | None => emit ev
  end.

(** [mcp.client.stdio.stdio_client(server)] *)
Definition stdio_client (server : StdioServerParameters)
  : AsyncContextManager StdioServerParameters := {|
  aenter := λ w,
    (_ ← guarded (spawn_fault transport server w) (ProcessSpawned server);
     mret server) w;
  aexit := λ raised,
    _ ← emit (ProcessTerminated server);
    match raised with
    | Some e => raise (channel_exit_raises transport e)
    | None => mret ()
    end
|}.

(** [mcp.ClientSession(read, write)] *)
Definition ClientSession (channel : StdioServerParameters)
  : AsyncContextManager StdioServerParameters := {|
  aenter := λ w,
    (_ ← guarded (enter_fault transport channel w) (SessionEntered channel);
     mret channel) w;
  aexit := λ raised,
    _ ← emit (SessionExited channel);
    match raised with
    | Some e => raise (session_exit_raises transport e)
    | None => mret ()
    end
|}.

Definition initialize (session : StdioServerParameters) : M unit :=
  λ w, guarded (initialize_fault transport session w) (Initialized session) w.

(** [session.list_tools()], as the module calls it. *)
Definition list_tools (session : StdioServerParameters) : M (list Tool) :=
  λ w,
    match list_tools_answer transport session w with
    | Return tools => (Return tools, ToolsListed session :: w)
    | Raise e => (Raise e, w)
    end.

(** [session.call_tool(name, arguments=...)], as the module calls it: the
    trace records this one call, not the requests the library sends to
    serve it. *)
Definition call_tool (session : StdioServerParameters)
    (name : string) (arguments : Kwargs) : M CallToolResult :=
  λ w,
    match call_tool_answer transport session w name arguments with
    | Return r => (Return r, ToolCalled session name arguments :: w)
    | Raise e => (Raise e, w)
    end.

(** ** The adapter: [create_mcp_tool] and the [McpTool] class *)

(** A pydantic model class, taken for what it does with candidate
    arguments: the validated arguments, or every offending field. *)
Record BaseModel : Type := {
  model_validate : Kwargs → violations + Kwargs
}.

(** [jsonschema_pydantic.jsonschema_to_pydantic] *)
Variable jsonschema_to_pydantic : Schema → outcome BaseModel.

Record McpTool : Type := {
  name : string;
  description : string;
  args_schema : BaseModel;
  mcp_server_params : StdioServerParameters
}.

Definition create_mcp_tool (tool_schema : Tool)
    (server_params : StdioServerParameters) : outcome McpTool :=
  match jsonschema_to_pydantic (inputSchema tool_schema) with
  | Raise e => Raise e
  | Return input_model =>
      Return {| name := tool_name tool_schema;
                description := tool_description tool_schema;
                args_schema := input_model;
                mcp_server_params := server_params |}
  end.

Definition _run (self : McpTool) (kwargs : Kwargs) : outcome Content :=
  Raise (NotImplementedError "Only async operations are supported").

Definition _arun (self : McpTool) (kwargs : Kwargs) : M Content :=
  async_with (stdio_client (mcp_server_params self)) (λ channel,
    async_with (ClientSession channel) (λ session,
      _ ← initialize session;
      result ← call_tool session (name self) kwargs;
      if isError result
      then raise (ToolException (content result))
      else mret (content result))).

(** Modelled from the spec: the caller-facing [invoke(rawArguments)] of a
    Tool Adapter.  In the repository this entry point is inherited from the
    framework's [BaseTool], which is not among the sources; the spec gives
    its steps: "Run Validator.check(rawArguments); on failure, fail
    immediately with a validation error — no session is opened", then the
    call on the validated arguments, which is [_arun]. *)
Definition invoke (self : McpTool) (rawArguments : Kwargs) : M Content :=
  match model_validate (args_schema self) rawArguments with
  | inl errors => raise (ValidationError errors)
  | inr validatedArguments => _arun self validatedArguments
  end.

(** ** Discovery and aggregation *)

(** [mcp_tools.append(create_mcp_tool(tool, server_param))] *)
Definition append_adapter (server_param : StdioServerParameters)
    (mcp_tools : list McpTool) (tool : Tool) : M (list McpTool) :=
  t ← lift (create_mcp_tool tool server_param);
  mret (mcp_tools ++ [t]).

Definition get_mcp_tools (server_param : StdioServerParameters)
  : M (list McpTool) :=
  async_with (stdio_client server_param) (λ channel,
    async_with (ClientSession channel) (λ session,
      _ ← initialize session;
      tools ← list_tools session;
      for_each (append_adapter server_param) tools [])).

(** [tools = await get_mcp_tools(server_param); langchain_tools.extend(tools)] *)
Definition extend_tools (langchain_tools : list McpTool)
    (server_param : StdioServerParameters) : M (list McpTool) :=
  tools ← get_mcp_tools server_param;
  mret (langchain_tools ++ tools).

Definition convert_mcp_to_langchain_tools
    (server_params : list StdioServerParameters) : M (list McpTool) :=
  for_each extend_tools server_params [].

(** ** What is open, and what an exchange that completes looks like *)

Inductive resource : Type :=
  | Process (p : StdioServerParameters)
  | Session (p : StdioServerParameters).

(** The effect of one event on the stack of resources held. *)
Definition track (ev : event) (held : list resource) : list resource :=
  match ev with
  | ProcessSpawned p => Process p :: held
  | SessionEntered p => Session p :: held
  | ProcessTerminated _ =>
      match held with
      | Process _ :: held' => held'
      | _ => held
      end
  | SessionExited _ =>
      match held with
      | Session _ :: held' => held'
      | _ => held
      end
  | _ => held
  end.

(** Events that neither acquire nor release anything. *)
Definition quiet (ev : event) : bool :=
  match ev with
  | Initialized _ | ToolsListed _ | ToolCalled _ _ _ => true
  | _ => false
  end.

Definition is_spawned (ev : event) : bool :=
  match ev with ProcessSpawned _ => true | _ => false end.
Definition is_terminated (ev : event) : bool :=
  match ev with ProcessTerminated _ => true | _ => false end.
Definition is_entered (ev : event) : bool :=
  match ev with SessionEntered _ => true | _ => false end.
Definition is_exited (ev : event) : bool :=
  match ev with SessionExited _ => true | _ => false end.

Fixpoint occurrences (f : event → bool) (w : trace) : nat :=
  match w with
  | [] => 0
  | ev :: w' => (if f ev then 1 else 0) + occurrences f w'
  end.

(** The resources a trace leaves open, the oldest event handled first. *)
Definition open_resources (w : trace) : list resource := foldr track [] w.

(** What a trace must satisfy, next to the one it extends, for everything
    acquired in between to have been released. *)
Definition released (w w' : trace) : Prop :=
  ∃ new, w' = new ++ w ∧
    open_resources w' = open_resources w ∧
    occurrences is_spawned new = occurrences is_terminated new ∧
    occurrences is_entered new = occurrences is_exited new.

(** How an outcome reached inside the session leaves the two blocks. *)
Definition leaves_session {A} (o : outcome A) : outcome A :=
  match o with
  | Return a => Return a
  | Raise e =>
      Raise (channel_exit_raises transport (session_exit_raises transport e))
  end.

(** Launch, session and handshake succeed from [w] for [p]. *)
Definition session_ready (p : StdioServerParameters) (w : trace) : Prop :=
  spawn_fault transport p w = None ∧
  enter_fault transport p (ProcessSpawned p :: w) = None ∧
  initialize_fault transport p (SessionEntered p :: ProcessSpawned p :: w) = None.

Definition ready_trace (p : StdioServerParameters) (w : trace) : trace :=
  Initialized p :: SessionEntered p :: ProcessSpawned p :: w.

(** The call exchange of [_arun] completes: the provider answers [result]. *)
Definition call_completes (self : McpTool) (kwargs : Kwargs) (w : trace)
    (result : CallToolResult) : Prop :=
  session_ready (mcp_server_params self) w ∧
  call_tool_answer transport (mcp_server_params self)
    (ready_trace (mcp_server_params self) w) (name self) kwargs = Return result.

(** The listing exchange completes: the provider lists [schemas]. *)
Definition listing_completes (p : StdioServerParameters) (w : trace)
    (schemas : list Tool) : Prop :=
  session_ready p w ∧
  list_tools_answer transport p (ready_trace p w) = Return schemas.

(** The trace a discovery that completes leaves behind. *)
Definition listed_trace (p : StdioServerParameters) (w : trace) : trace :=
  ProcessTerminated p :: SessionExited p :: ToolsListed p :: ready_trace p w.

(** Discovery succeeds for each descriptor in turn, from [w] to [w']. *)
Inductive discovered
  : list StdioServerParameters → trace → list (list McpTool) → trace → Prop :=
  | discovered_nil w : discovered [] w [] w
  | discovered_cons p ps w found w1 rest w2 :
      get_mcp_tools p w = (Return found, w1) →
      discovered ps w1 rest w2 →
      discovered (p :: ps) w (found :: rest) w2.

(** ** Configuration *)

(** One entry of [mcpServers], of the shape the configuration declares:
    a command, and optionally arguments and an environment of strings.
    The code reads [command] by subscript and [args], [env] with [get]
    and a default: the former is a plain field, the latter are optional.
    Entries of another shape (no [command], an [env] that is not a
    dictionary of strings) are outside the model. *)
Record ServerEntry : Type := {
  cfg_command : string;
  cfg_args : option (list string);
  cfg_env : option (gmap string string)
}.

Record LlmConfig : Type := {
  llm_api_key : option string;
  llm_model : option string;
  llm_provider : option string;
  llm_temperature : option Q
}.

(** The configuration file, a dictionary kept in the order of the file. *)
Record ServerConfig : Type := {
  mcpServers : list (string * ServerEntry);
  llm : option LlmConfig;
  systemPrompt : option string
}.

(** [os.environ] of the running process. *)
Variable os_environ : gmap string string.

Definition os_getenv (key : string) : option string := os_environ !! key.

(** One round of the loop over [server_parameter.env.items()]. *)
Definition resolve_item (env : gmap string string) (item : string * string)
  : gmap string string :=
  let '(key, value) := item in
  if (String.length value =? 0) && bool_decide (is_Some (os_environ !! key))
  then match os_getenv key with
       | Some v => <[key := v]> env
       | None => env
       end
  else env.

Definition resolve_env (env : gmap string string) : gmap string string :=
  foldl resolve_item env (map_to_list env).

(** [StdioServerParameters(command=..., args=..., env=...)].  The class
    declares [env] as a dictionary of strings: its constructor refuses a
    dictionary that holds [None], naming every such entry. *)
Definition new_StdioServerParameters (cmd : string) (arguments : list string)
    (environment : gmap string (option string)) : outcome StdioServerParameters :=
  match map_to_list (filter (λ item, item.2 = None) environment) with
  | [] => Return {| command := cmd; args := arguments; env := omap id environment |}
  | invalid =>
      Raise (ValidationError
               ((λ item, ("env." +:+ item.1, "Input should be a valid string"))
                  <$> invalid))
  end.

(** The body of the loop of [create_server_parameters].  [os.getenv]
    answers [None] for a variable that is not set. *)
Definition create_server_parameter (config : ServerEntry)
  : outcome StdioServerParameters :=
  match new_StdioServerParameters
          (cfg_command config)
          (default [] (cfg_args config))
          (<["PATH" := os_getenv "PATH"]> (Some <$> default ∅ (cfg_env config)))
  with
  | Raise e => Raise e
  | Return server_parameter =>
      Return {| command := command server_parameter;
                args := args server_parameter;
                env := resolve_env (env server_parameter) |}
  end.

Fixpoint create_server_parameters_from (configs : list ServerEntry)
    (server_parameters : list StdioServerParameters)
  : outcome (list StdioServerParameters) :=
  match configs with
  | [] => Return server_parameters
  | config :: configs' =>
      match create_server_parameter config with
      | Raise e => Raise e
      | Return server_parameter =>
          create_server_parameters_from configs'
            (server_parameters ++ [server_parameter])
      end
  end.

Definition create_server_parameters (server_config : ServerConfig)
  : outcome (list StdioServerParameters) :=
  create_server_parameters_from (mcpServers server_config).*2 [].

(** ** Start-up *)

Definition CONFIG_FILE : string := "mcp-server-config.json".

(** What [CONFIG_FILE] parses to; [None] when the file does not exist. *)
Variable config_file : option ServerConfig.

Definition load_server_config : outcome ServerConfig :=
  match config_file with
  | Some server_config => Return server_config
  | None => Raise (FileNotFoundError ("Could not find config file " +:+ CONFIG_FILE))
  end.

(** The keyword arguments handed to [init_chat_model]. *)
Record InitArgs : Type := {
  init_model : string;
  init_model_provider : string;
  init_temperature : Q;
  init_streaming : bool;
  init_api_key : option string
}.

(** The keyword arguments [initialize_model] builds for
    [init_chat_model]; the model the framework makes of them, or its
    failure to make one, is not represented. *)
Definition initialize_model (llm_config : LlmConfig) : InitArgs :=
  {| init_model := default "gpt-4o-mini" (llm_model llm_config);
     init_model_provider := default "openai" (llm_provider llm_config);
     init_temperature := default 0%Q (llm_temperature llm_config);
     init_streaming := true;
     init_api_key :=
       match llm_api_key llm_config with
       | Some key => if String.length key =? 0 then None else Some key
       | None => None
       end |}.

Definition rest_suffix : string :=
  String (Ascii.ascii_of_nat 10) "Give the output in the json format only. Please do not include json formatting. Give plain json output.".

(** The messages [create_chat_prompt] hands to
    [ChatPromptTemplate.from_messages].  The template the framework makes
    of them, and its refusal of a prompt it cannot parse, are not
    represented. *)
Definition create_chat_prompt (client : string) (server_config : ServerConfig)
  : list (string * string) :=
  let system_prompt := default "" (systemPrompt server_config) in
  let system_prompt :=
    if bool_decide (client = "rest") then system_prompt +:+ rest_suffix
    else system_prompt in
  [("system", system_prompt); ("user", "{messages}");
   ("placeholder", "{agent_scratchpad}")].

(** [create_tool_calling_agent(model, tools, prompt)] and
    [AgentExecutor(agent=agent, tools=tools)], kept as what they were
    built from. *)
Record Agent : Type := {
  agent_model : InitArgs;
  agent_tools : list McpTool;
  agent_prompt : list (string * string)
}.

Record AgentExecutor : Type := {
  agent : Agent;
  tools : list McpTool
}.

(** The start-up.  It is followed faithfully up to and including the
    aggregation; after it the code builds the model, the prompt, the
    agent and the executor with the framework, and only what these
    constructors are given is kept: that one of them raises is not
    represented. *)
Definition initialise_tools (client : string) : M AgentExecutor :=
  server_config ← lift load_server_config;
  server_params ← lift (create_server_parameters server_config);
  langchain_tools ← convert_mcp_to_langchain_tools server_params;
  let model :=
    initialize_model
      (default {| llm_api_key := None; llm_model := None;
                  llm_provider := None; llm_temperature := None |}
               (llm server_config)) in
  let prompt := create_chat_prompt client server_config in
  let agent :=
    {| agent_model := model; agent_tools := langchain_tools;
       agent_prompt := prompt |} in
  let agent_executor := {| agent := agent; tools := langchain_tools |} in
  mret agent_executor.

End Bridge.

(** * The schema converter and its validators *)

(** Modelled from the spec: the Schema Converter.  The repository hands
    the conversion to [jsonschema_to_pydantic], a function that is not
    among the sources; the spec describes it: "given an OperationSchema's
    parameter shape, produce a Validator.  Must support, at minimum:
    primitive types (string, number, boolean), optional vs. required
    fields, nested objects, and homogeneous sequences.  Unsupported schema
    constructs fail closed", and the validator's check "returns either a
    canonical, type-coerced argument mapping or a validation failure
    enumerating every offending field (not just the first)".  Following
    the design notes the schema shape is stored as data and interpreted
    generically. *)
Module SchemaConverter.

(** A parameter shape as a provider declares it.  A field is a name, a
    required marker and the shape of its value. *)
Inductive shape : Type :=
  | SString
  | SNumber
  | SBoolean
  | SObject (fields : list (string * bool * shape))
  | SArray (items : shape)
  | SUnsupported (construct : string).

(** The parameter schema of an operation: the fields of its arguments. *)
Definition schema : Type := list (string * bool * shape).

Inductive value : Type :=
  | VNull
  | VString (s : string)
  | VNumber (q : Q)
  | VBoolean (b : bool)
  | VObject (members : list (string * value))
  | VArray (elements : list value).

Definition kwargs : Type := list (string * value).

(** What a validator is made of: the supported shapes and no other. *)
Inductive descriptor : Type :=
  | DString
  | DNumber
  | DBoolean
  | DObject (fields : list (string * bool * descriptor))
  | DArray (items : descriptor).

Section Fields.
Context {A B : Type} (convert : A → string + B).

Fixpoint convert_fields (fields : list (string * bool * A))
  : string + list (string * bool * B) :=
  match fields with
  | [] => inr []
  | (name, required, s) :: fields' =>
      match convert s with
      | inl construct => inl construct
      | inr d =>
          match convert_fields fields' with
          | inl construct => inl construct
          | inr ds => inr ((name, required, d) :: ds)
          end
      end
  end.

End Fields.

(** Modelled from the spec: the conversion of a shape, "unsupported schema
    constructs fail closed": it fails on the first unsupported construct
    met, at any depth, and names it. *)
Fixpoint convert (s : shape) : string + descriptor :=
  match s with
  | SString => inr DString
  | SNumber => inr DNumber
  | SBoolean => inr DBoolean
  | SObject fields =>
      match convert_fields convert fields with
      | inl construct => inl construct
      | inr ds => inr (DObject ds)
      end
  | SArray items =>
      match convert items with
      | inl construct => inl construct
      | inr d => inr (DArray d)
      end
  | SUnsupported construct => inl construct
  end.

Inductive contains_unsupported : shape → Prop :=
  | unsupported_here construct :
      contains_unsupported (SUnsupported construct)
  | unsupported_field name required s fields :
      (name, required, s) ∈ fields →
      contains_unsupported s →
      contains_unsupported (SObject fields)
  | unsupported_items s :
      contains_unsupported s →
      contains_unsupported (SArray s).

Fixpoint member (name : string) (members : list (string * value)) : option value :=
  match members with
  | [] => None
  | (k, v) :: members' => if String.eqb k name then Some v else member name members'
  end.

Definition dotted (path name : string) : string :=
  if String.length path =? 0 then name else path +:+ "." +:+ name.

Section Check.
Context (check_value : descriptor → string → value → violations).

Fixpoint check_fields (fields : list (string * bool * descriptor))
    (path : string) (members : list (string * value)) : violations :=
  match fields with
  | [] => []
  | (name, required, d) :: fields' =>
      match member name members with
      | Some v => check_value d (dotted path name) v
      | None => if required then [(dotted path name, "field required")] else []
      end ++ check_fields fields' path members
  end.

End Check.

(** Modelled from the spec: the violations of [v] under [d], "every
    offending field (not just the first)", each with its path. *)
Fixpoint check_value (d : descriptor) (path : string) (v : value) : violations :=
  match d, v with
  | DString, VString _ => []
  | DString, _ => [(path, "string expected")]
  | DNumber, VNumber _ => []
  | DNumber, _ => [(path, "number expected")]
  | DBoolean, VBoolean _ => []
  | DBoolean, _ => [(path, "boolean expected")]
  | DObject fields, VObject members =>
      check_fields
        (λ d' path' v', check_value d' path' v') fields path members
  | DObject _, _ => [(path, "object expected")]
  | DArray items, VArray elements =>
      flat_map (λ v', check_value items (dotted path "[]") v') elements
  | DArray _, _ => [(path, "sequence expected")]
  end.

(** Modelled from the spec: the validator's [check(arguments)], which
    "returns either a canonical, type-coerced argument mapping or a
    validation failure enumerating every offending field". *)
Definition check (d : descriptor) (arguments : kwargs) : violations + kwargs :=
  match check_value d "" (VObject arguments) with
  | [] => inr arguments
  | errors => inl errors
  end.

(** Modelled from the spec: the converter as [create_mcp_tool] calls it,
    "the converter raises a conversion error rather than silently
    producing a permissive validator". *)
Definition jsonschema_to_pydantic {Content} (parameters : schema)
  : @outcome Content (@BaseModel kwargs) :=
  match convert (SObject parameters) with
  | inl construct => Raise (ConversionError construct)
  | inr d => Return {| model_validate := check d |}
  end.

End SchemaConverter.

(** * A registry of four providers

    The providers the examples run against, told apart by the command
    that launches them: [echo] and [shout] both declare an operation
    named [echo]; [exotic] declares an operation whose schema uses a
    construct the converter does not support; [missing] cannot be
    launched. *)
Module Providers.
Import SchemaConverter.

Definition server (cmd : string) : StdioServerParameters :=
  {| command := cmd; args := []; env := {["PATH" := "/usr/bin"]} |}.

Definition echo_schema : @Tool schema :=
  {| tool_name := "echo";
     tool_description := "Send the text back";
     inputSchema := [("text", true, SString)] |}.

Definition shout_schema : @Tool schema :=
  {| tool_name := "echo";
     tool_description := "Send the text back in capitals";
     inputSchema := [("text", true, SString)] |}.

Definition exotic_schema : @Tool schema :=
  {| tool_name := "remind";
     tool_description := "Set a reminder";
     inputSchema := [("when", true, SUnsupported "format")] |}.

Definition catalog (p : StdioServerParameters) : list (@Tool schema) :=
  if String.eqb (command p) "echo" then [echo_schema]
  else if String.eqb (command p) "shout" then [shout_schema]
  else if String.eqb (command p) "exotic" then [exotic_schema]
  else [].

Definition answer (name : string) (arguments : kwargs) : @CallToolResult value :=
  if String.eqb name "echo"
  then match member "text" arguments with
       | Some text => {| content := text; isError := false |}
       | None => {| content := VString "text is missing"; isError := true |}
       end
  else {| content := VString "unknown operation"; isError := true |}.

(** The exit of a task group: the exception of the body, in a group. *)
Definition task_group {Content} (e : @exn Content) : @exn Content :=
  ExceptionGroup "unhandled errors in a TaskGroup" [e].

Definition registry_transport : @Transport schema kwargs value :=
  {| spawn_fault := λ p _,
       if String.eqb (command p) "missing"
       then Some (LibraryError "No such file or directory")
       else None;
     enter_fault := λ _ _, None;
     initialize_fault := λ _ _, None;
     list_tools_answer := λ p _, Return (catalog p);
     call_tool_answer := λ _ _ name arguments, Return (answer name arguments);
     channel_exit_raises := task_group;
     session_exit_raises := task_group |}.

Definition echo_tool : @McpTool kwargs :=
  {| name := "echo";
     description := "Send the text back";
     args_schema := {| model_validate := check (DObject [("text", true, DString)]) |};
     mcp_server_params := server "echo" |}.

(** A process environment with a search path, and one without. *)
Definition environ_with_path : gmap string string :=
  {["PATH" := "/usr/bin"; "HOME" := "/root"]}.

Definition environ_without_path : gmap string string :=
  {["HOME" := "/root"]}.

Definition entry (cmd : string) (e : option (gmap string string)) : ServerEntry :=
  {| cfg_command := cmd; cfg_args := None; cfg_env := e |}.

Definition sample_config : ServerConfig :=
  {| mcpServers :=
       [("files", entry "echo" (Some {["HOME" := ""; "TOKEN" := ""; "PATH" := "/opt/bin"]}))];
     llm := None;
     systemPrompt := None |}.

(** A configuration file that registers [echo], [missing] and [shout]. *)
Definition startup_config : ServerConfig :=
  {| mcpServers :=
       [("echo", entry "echo" None); ("missing", entry "missing" None);
        ("shout", entry "shout" None)];
     llm := None;
     systemPrompt := Some "Be brief." |}.

End Providers.

(** * What a run is observed to do *)

Section Observations.

Context {Schema Kwargs Content : Type}.
Context (transport : @Transport Schema Kwargs Content).

(** The provider an event is about. *)
Definition event_server (ev : @event Kwargs) : StdioServerParameters :=
  match ev with
  | ProcessSpawned p | ProcessTerminated p | SessionEntered p
  | SessionExited p | Initialized p | ToolsListed p | ToolCalled p _ _ => p
  end.

Definition is_call (ev : @event Kwargs) : bool :=
  match ev with ToolCalled _ _ _ => true | _ => false end.

Definition is_listing (ev : @event Kwargs) : bool :=
  match ev with ToolsListed _ => true | _ => false end.

(** The launch of [p] raises [e]: nothing is acquired. *)
Definition launch_fault (p : StdioServerParameters) (w : @trace Kwargs)
    (e : @exn Content) : Prop :=
  spawn_fault transport p w = Some e.

(** The process is spawned and entering the session raises [e], inside
    the block of [stdio_client]. *)
Definition entry_fault (p : StdioServerParameters) (w : @trace Kwargs)
    (e : @exn Content) : Prop :=
  spawn_fault transport p w = None
  ∧ enter_fault transport p (ProcessSpawned p :: w) = Some e.

(** The session is entered and the handshake raises [e], inside both
    blocks. *)
Definition handshake_fault (p : StdioServerParameters) (w : @trace Kwargs)
    (e : @exn Content) : Prop :=
  spawn_fault transport p w = None
  ∧ enter_fault transport p (ProcessSpawned p :: w) = None
  ∧ initialize_fault transport p
      (SessionEntered p :: ProcessSpawned p :: w) = Some e.

(** What is raised inside both blocks on the way of a call: a fault of
    the handshake or of [call_tool], or the [ToolException] of an error
    result. *)
Definition raised_during_call (self : @McpTool Kwargs) (kwargs : Kwargs)
    (w : @trace Kwargs) (e : @exn Content) : Prop :=
  handshake_fault (mcp_server_params self) w e
  ∨ (session_ready transport (mcp_server_params self) w
     ∧ call_tool_answer transport (mcp_server_params self)
         (ready_trace (mcp_server_params self) w) (name self) kwargs = Raise e)
  ∨ ∃ result,
      call_completes transport self kwargs w result
      ∧ isError result = true
      ∧ e = ToolException (content result).

(** What is raised inside both blocks on the way of a discovery: a fault
    of the handshake or of [list_tools], or the exception of the
    converter on the first listed schema it refuses. *)
Definition raised_during_listing
    (jsonschema_to_pydantic : Schema → @outcome Content (@BaseModel Kwargs))
    (p : StdioServerParameters) (w : @trace Kwargs) (e : @exn Content) : Prop :=
  handshake_fault p w e
  ∨ (session_ready transport p w
     ∧ list_tools_answer transport p (ready_trace p w) = Raise e)
  ∨ ∃ before s after found,
      listing_completes transport p w (before ++ s :: after)
      ∧ Forall2 (λ s t, create_mcp_tool jsonschema_to_pydantic s p = Return t)
          before found
      ∧ jsonschema_to_pydantic (inputSchema s) = Raise e.

(** The events one session with [p] may add to a trace: nothing when the
    launch fails, and otherwise a spawn and a termination around what
    happened in between. *)
Definition session_events (p : StdioServerParameters)
    (exchange : @event Kwargs) (new : @trace Kwargs) : Prop :=
  new = []
  ∨ new = [ProcessTerminated p; ProcessSpawned p]
  ∨ new = [ProcessTerminated p; SessionExited p;
           SessionEntered p; ProcessSpawned p]
  ∨ new = [ProcessTerminated p; SessionExited p; Initialized p;
           SessionEntered p; ProcessSpawned p]
  ∨ new = [ProcessTerminated p; SessionExited p; exchange; Initialized p;
           SessionEntered p; ProcessSpawned p].

End Observations.

(** * More fixtures *)

Module Fixtures.
Import SchemaConverter Providers.

(** The adapter discovery builds for the operation of [shout]. *)
Definition shout_tool : @McpTool kwargs :=
  {| name := "echo";
     description := "Send the text back in capitals";
     args_schema := args_schema echo_tool;
     mcp_server_params := server "shout" |}.

(** An entry that pins [HOME] and leaves [LANG] to the process. *)
Definition pinned_config : ServerConfig :=
  {| mcpServers :=
       [("files", entry "echo" (Some {["HOME" := "/srv"; "LANG" := ""]}))];
     llm := None;
     systemPrompt := None |}.

Definition pinned_descriptor : StdioServerParameters :=
  {| command := "echo";
     args := [];
     env := {["HOME" := "/srv"; "LANG" := ""; "PATH" := "/usr/bin"]} |}.

End Fixtures.

(** * Properties *)

Section Facts.

Context {Schema Kwargs Content : Type}.
Context (transport : @Transport Schema Kwargs Content).
Context (jsonschema_to_pydantic : Schema → @outcome Content (@BaseModel Kwargs)).

Implicit Types (w : @trace Kwargs) (p : StdioServerParameters).
Implicit Types (self : @McpTool Kwargs) (kwargs : Kwargs).

(** ** Loops and context managers *)

Lemma for_each_cons {A S} (body : S → A → @M Kwargs Content S) x xs acc w :
  for_each body (x :: xs) acc w =
    match body acc x w with
    | (Return acc', w1) => for_each body xs acc' w1
    | (Raise e, w1) => (Raise e, w1)
    end.
Proof. reflexivity. Qed.

(** The two nested [async with] blocks around a body that starts with the
    handshake, when launch, session and handshake succeed. *)
Lemma session_block_ready {B}
    (body : StdioServerParameters → @M Kwargs Content B) p w :
  session_ready transport p w →
  async_with (stdio_client transport p) (λ channel,
    async_with (ClientSession transport channel) (λ session,
      _ ← initialize transport session; body session)) w =
  let '(r, w') := body p (ready_trace p w) in
  (leaves_session transport r, ProcessTerminated p :: SessionExited p :: w').
Proof.
  intros (Hspawn & Henter & Hinit).
  unfold async_with, stdio_client, ClientSession, initialize, ready_trace; simpl.
  unfold mbind, M_bind, guarded; simpl.
  rewrite Hspawn; simpl. rewrite Henter; simpl. rewrite Hinit; simpl.
  destruct (body _ _) as [[r|e] w']; reflexivity.
Qed.

Lemma occurrences_app (f : @event Kwargs → bool) w1 w2 :
  occurrences f (w1 ++ w2) = occurrences f w1 + occurrences f w2.
Proof. induction w1 as [|ev w1 IH]; simpl; [done|]. rewrite IH. lia. Qed.

Lemma quiet_track (calls : @trace Kwargs) held :
  forallb quiet calls = true → foldr track held calls = held.
Proof.
  induction calls as [|ev calls IH]; simpl; [done|].
  intros [Hev Hcalls]%andb_true_iff. rewrite (IH Hcalls).
  destruct ev; simpl in Hev; try discriminate; reflexivity.
Qed.

Lemma quiet_occurrences (f : @event Kwargs → bool) (calls : @trace Kwargs) :
  (∀ ev, quiet ev = true → f ev = false) →
  forallb quiet calls = true → occurrences f calls = 0.
Proof.
  intros Hf. induction calls as [|ev calls IH]; simpl; [done|].
  intros [Hev Hcalls]%andb_true_iff. rewrite (Hf _ Hev), (IH Hcalls). done.
Qed.

(** Whatever the body does, the two blocks release what they acquired. *)
Lemma session_block_closes {B}
    (body : StdioServerParameters → @M Kwargs Content B) p w :
  (∀ session w1, ∃ calls,
     (body session w1).2 = calls ++ w1 ∧ forallb quiet calls = true) →
  released w
    (async_with (stdio_client transport p) (λ channel,
       async_with (ClientSession transport channel) body) w).2.
Proof.
  intros Hbody.
  unfold async_with, stdio_client, ClientSession; simpl.
  unfold mbind, M_bind, guarded; simpl.
  destruct (spawn_fault transport p w) as [e|]; simpl.
  { exists []. done. }
  destruct (enter_fault transport p _) as [e|]; simpl.
  { exists [ProcessTerminated p; ProcessSpawned p]. done. }
  destruct (Hbody p (SessionEntered p :: ProcessSpawned p :: w))
    as (calls & Hcalls & Hquiet).
  destruct (body p _) as [[r|e] wb]; simpl in *; subst wb.
  all: exists (ProcessTerminated p :: SessionExited p ::
               calls ++ [SessionEntered p; ProcessSpawned p]).
  all: simpl.
  all: split; [by rewrite <- app_assoc|].
  all: split;
    [ unfold open_resources; simpl; rewrite foldr_app; simpl;
      by rewrite quiet_track
    | rewrite !occurrences_app; simpl;
      rewrite !quiet_occurrences by (done || by intros []);
      done ].
Qed.

(** ** The adapter *)

Lemma arun_body_quiet self kwargs session w1 :
  ∃ calls,
    ((_ ← initialize transport session;
      result ← call_tool transport session (name self) kwargs;
      if isError result
      then raise (ToolException (content result))
      else mret (content result)) w1).2 = calls ++ w1
    ∧ forallb quiet calls = true.
Proof.
  unfold mbind, M_bind, initialize, call_tool, guarded, raise, emit.
  destruct (initialize_fault transport session w1) as [e|]; simpl.
  { by exists []. }
  destruct (call_tool_answer transport session _ _ _) as [result|e]; simpl.
  - exists [ToolCalled session (name self) kwargs; Initialized session].
    by destruct (isError result).
  - by exists [Initialized session].
Qed.

(** C1. Every invocation of [_arun] releases what it acquired before it
    returns, whichever way it ends: a launch fault leaves nothing behind,
    and once the process is spawned or the session entered, its teardown
    is recorded whether the call succeeds, the provider reports an error
    or a fault is raised in between.  The trace is only extended, the
    resources open at the end are those open at the start, and the new
    events hold as many terminations as spawns and as many session exits
    as session entries. *)
Theorem arun_tears_session_down self kwargs w :
  released w (_arun transport self kwargs w).2.
Proof.
  unfold _arun. apply session_block_closes.
  intros session w1. apply arun_body_quiet.
Qed.

(** C2. When the raw arguments fail the adapter's validator, [invoke]
    fails with the validation error that lists the offending fields, and
    the trace is left as it was: no process is spawned and no session is
    entered. *)
Theorem invoke_rejects_invalid_arguments self rawArguments errors w :
  model_validate (args_schema self) rawArguments = inl errors →
  invoke transport self rawArguments w = (Raise (ValidationError errors), w).
Proof. intros Hcheck. unfold invoke. by rewrite Hcheck. Qed.

(** With arguments the validator accepts, [invoke] is the call itself. *)
Lemma invoke_valid_arguments self rawArguments validated w :
  model_validate (args_schema self) rawArguments = inr validated →
  invoke transport self rawArguments w = _arun transport self validated w.
Proof. intros Hcheck. unfold invoke. by rewrite Hcheck. Qed.

Lemma invoke_tears_session_down self rawArguments w :
  released w (invoke transport self rawArguments w).2.
Proof.
  unfold invoke. destruct (model_validate _ _) as [errors|validated].
  - by exists [].
  - unfold _arun. apply session_block_closes.
    intros session w1. apply arun_body_quiet.
Qed.

(** The outcome and trace of a call exchange that completes: the raise
    of [ToolException] is inside the two blocks and leaves through their
    exits. *)
Lemma arun_completed self kwargs w result :
  call_completes transport self kwargs w result →
  _arun transport self kwargs w =
    (leaves_session transport
       (if isError result
        then Raise (ToolException (content result))
        else Return (content result)),
     ProcessTerminated (mcp_server_params self)
       :: SessionExited (mcp_server_params self)
       :: ToolCalled (mcp_server_params self) (name self) kwargs
       :: ready_trace (mcp_server_params self) w).
Proof.
  intros [Hready Hcall]. unfold _arun.
  rewrite (session_block_ready _ _ _ Hready).
  unfold mbind, M_bind, call_tool. rewrite Hcall.
  by destruct (isError result).
Qed.

(** C9. The synchronous path [_run] raises [NotImplementedError] for every
    adapter and every argument mapping; it never returns a result and, not
    being a coroutine, opens nothing. *)
Theorem run_is_not_implemented self kwargs :
  @_run Kwargs Content self kwargs =
    Raise (NotImplementedError "Only async operations are supported").
Proof. reflexivity. Qed.

(** ** Discovery *)

Lemma create_mcp_tool_raises tool_schema p e :
  jsonschema_to_pydantic (inputSchema tool_schema) = Raise e →
  create_mcp_tool jsonschema_to_pydantic tool_schema p = Raise e.
Proof. intros Hconv. unfold create_mcp_tool. by rewrite Hconv. Qed.

Lemma create_mcp_tool_returns tool_schema p t :
  create_mcp_tool jsonschema_to_pydantic tool_schema p = Return t ↔
  jsonschema_to_pydantic (inputSchema tool_schema) = Return (args_schema t)
  ∧ name t = tool_name tool_schema
  ∧ description t = tool_description tool_schema
  ∧ mcp_server_params t = p.
Proof.
  unfold create_mcp_tool.
  destruct (jsonschema_to_pydantic _) as [input_model|e]; split.
  - by intros [= <-].
  - intros ([= ->] & Hn & Hd & Hp). destruct t; simpl in *. by subst.
  - done.
  - by intros [? _].
Qed.

Lemma adapters_all_built p schemas found acc w :
  Forall2 (λ s t, create_mcp_tool jsonschema_to_pydantic s p = Return t)
    schemas found →
  for_each (append_adapter jsonschema_to_pydantic p) schemas acc w = (Return (acc ++ found), w).
Proof.
  intros Hall. revert acc.
  induction Hall as [|s t schemas found Hst _ IH]; intros acc.
  - by rewrite app_nil_r.
  - rewrite for_each_cons. unfold append_adapter at 1, mbind, M_bind, lift.
    rewrite Hst. simpl. rewrite IH. by rewrite <- app_assoc.
Qed.

Lemma adapters_first_failure p before s after found e acc w :
  Forall2 (λ s t, create_mcp_tool jsonschema_to_pydantic s p = Return t)
    before found →
  create_mcp_tool jsonschema_to_pydantic s p = Raise e →
  for_each (append_adapter jsonschema_to_pydantic p) (before ++ s :: after) acc w = (Raise e, w).
Proof.
  intros Hall Hs. revert acc.
  induction Hall as [|s0 t before found Hst _ IH]; intros acc; simpl app;
    rewrite for_each_cons; unfold append_adapter at 1, mbind, M_bind, lift.
  - by rewrite Hs.
  - rewrite Hst. simpl. apply IH.
Qed.

Lemma convertible_schemas_build p schemas :
  Forall (λ s, is_return (jsonschema_to_pydantic (inputSchema s)) = true) schemas →
  ∃ found,
    Forall2 (λ s t, create_mcp_tool jsonschema_to_pydantic s p = Return t)
      schemas found.
Proof.
  induction 1 as [|s schemas Hs _ [found IH]].
  - exists []. constructor.
  - destruct (jsonschema_to_pydantic (inputSchema s)) as [input_model|e] eqn:Hconv;
      [|done].
    eexists (_ :: found). constructor; [|done].
    unfold create_mcp_tool. rewrite Hconv. reflexivity.
Qed.

(** Discovery when the listing completes and every adapter builds. *)
Lemma get_mcp_tools_listed p w schemas found :
  listing_completes transport p w schemas →
  Forall2 (λ s t, create_mcp_tool jsonschema_to_pydantic s p = Return t)
    schemas found →
  get_mcp_tools transport jsonschema_to_pydantic p w =
    (Return found, listed_trace p w).
Proof.
  intros [Hready Hlist] Hall. unfold get_mcp_tools.
  rewrite (session_block_ready _ _ _ Hready).
  unfold mbind at 1, M_bind at 1, list_tools. rewrite Hlist.
  by rewrite (adapters_all_built _ _ _ _ _ Hall).
Qed.

(** Discovery when the listing completes and an adapter fails to build:
    the exception of the converter leaves through the two exits. *)
Lemma get_mcp_tools_conversion_failure p w before s after found e :
  listing_completes transport p w (before ++ s :: after) →
  Forall2 (λ s t, create_mcp_tool jsonschema_to_pydantic s p = Return t)
    before found →
  jsonschema_to_pydantic (inputSchema s) = Raise e →
  get_mcp_tools transport jsonschema_to_pydantic p w =
    (leaves_session transport (Raise e), listed_trace p w).
Proof.
  intros [Hready Hlist] Hall Hs. unfold get_mcp_tools.
  rewrite (session_block_ready _ _ _ Hready).
  unfold mbind at 1, M_bind at 1, list_tools. rewrite Hlist.
  by rewrite (adapters_first_failure _ _ _ _ _ _ _ _ Hall
                (create_mcp_tool_raises _ _ _ Hs)).
Qed.

(** C4, amended. When the provider's listing completes with a sequence of
    schemas and the converter accepts the input schema of each of them,
    [get_mcp_tools] returns exactly one adapter per schema, in the order
    listed: each adapter has the name and the description of its schema,
    the validator converted from its input schema, and the descriptor of
    the provider. *)
Theorem discovery_one_adapter_per_schema p w schemas :
  listing_completes transport p w schemas →
  Forall (λ s, is_return (jsonschema_to_pydantic (inputSchema s)) = true) schemas →
  ∃ found,
    get_mcp_tools transport jsonschema_to_pydantic p w =
      (Return found, listed_trace p w)
    ∧ length found = length schemas
    ∧ Forall2
        (λ s t, name t = tool_name s
                ∧ description t = tool_description s
                ∧ jsonschema_to_pydantic (inputSchema s) = Return (args_schema t)
                ∧ mcp_server_params t = p)
        schemas found.
Proof.
  intros Hlist Hconv.
  destruct (convertible_schemas_build p schemas Hconv) as [found Hall].
  exists found. split; [by apply get_mcp_tools_listed with schemas|].
  split; [symmetry; by eapply Forall2_length|].
  eapply Forall2_impl; [exact Hall|].
  intros s t Hst. apply create_mcp_tool_returns in Hst. tauto.
Qed.

(** Building adapters is no exchange with the provider. *)
Lemma adapters_loop_trace p schemas acc w :
  (for_each (append_adapter jsonschema_to_pydantic p) schemas acc w).2 = w.
Proof.
  revert acc. induction schemas as [|s schemas IH]; intros acc; [done|].
  rewrite for_each_cons. unfold append_adapter at 1, mbind, M_bind, lift.
  destruct (create_mcp_tool _ _ _); simpl; [apply IH|done].
Qed.

(** Discovery too releases what it acquired, whichever way it ends. *)
Lemma get_mcp_tools_released p w :
  released w (get_mcp_tools transport jsonschema_to_pydantic p w).2.
Proof.
  unfold get_mcp_tools. apply session_block_closes.
  intros session w1.
  unfold mbind at 1, M_bind at 1, initialize, guarded, raise, emit.
  destruct (initialize_fault transport session w1) as [e|]; simpl.
  { by exists []. }
  unfold mbind, M_bind, list_tools.
  destruct (list_tools_answer transport session _) as [schemas|e]; simpl.
  - exists [ToolsListed session; Initialized session]. split; [|done].
    by rewrite adapters_loop_trace.
  - by exists [Initialized session].
Qed.

(** ** Aggregation *)

Lemma extend_tools_eq acc p w :
  extend_tools transport jsonschema_to_pydantic acc p w =
    match get_mcp_tools transport jsonschema_to_pydantic p w with
    | (Return found, w1) => (Return (acc ++ found), w1)
    | (Raise e, w1) => (Raise e, w1)
    end.
Proof. reflexivity. Qed.

Lemma aggregation_from ps acc w all w' :
  for_each (extend_tools transport jsonschema_to_pydantic) ps acc w = (Return all, w')
  ↔ ∃ per_provider,
      discovered transport jsonschema_to_pydantic ps w per_provider w'
      ∧ all = acc ++ concat per_provider.
Proof.
  revert acc w. induction ps as [|p ps IH]; intros acc w.
  - simpl. split.
    + intros [= <- <-]. exists []. split; [constructor|by rewrite app_nil_r].
    + intros (per & Hd & ->). inversion Hd; subst. by rewrite app_nil_r.
  - rewrite for_each_cons, extend_tools_eq.
    destruct (get_mcp_tools _ _ p w) as [[found|e] w1] eqn:Hp.
    + rewrite IH. split.
      * intros (per & Hd & ->). exists (found :: per).
        split; [by econstructor|by rewrite <- app_assoc].
      * intros (per & Hd & ->). inversion Hd as [|? ? ? found' ? rest ? Hp' Hrest]; subst.
        rewrite Hp in Hp'. injection Hp' as <- <-.
        exists rest. split; [done|by rewrite <- app_assoc].
    + split; [done|].
      intros (per & Hd & _). inversion Hd as [|? ? ? found' ? rest ? Hp' Hrest]; subst.
      rewrite Hp in Hp'. discriminate.
Qed.

Lemma aggregation_failure_from before p after acc w per_provider w1 e w2 :
  discovered transport jsonschema_to_pydantic before w per_provider w1 →
  get_mcp_tools transport jsonschema_to_pydantic p w1 = (Raise e, w2) →
  for_each (extend_tools transport jsonschema_to_pydantic)
    (before ++ p :: after) acc w = (Raise e, w2).
Proof.
  intros Hd Hp. revert acc.
  induction Hd as [w|q qs w found w' rest w'' Hq _ IH]; intros acc; simpl app;
    rewrite for_each_cons, extend_tools_eq.
  - by rewrite Hp.
  - rewrite Hq. by apply IH.
Qed.

(** C5. [convert_mcp_to_langchain_tools] returns a collection exactly when
    discovery succeeds for every descriptor of the list in turn, and the
    collection is then the concatenation of the providers' adapter lists
    in the order of the list: every adapter of every provider is in it,
    as built, so adapters of different providers that bear the same name
    are all there. *)
Theorem aggregation_is_concatenation ps w all w' :
  convert_mcp_to_langchain_tools transport jsonschema_to_pydantic ps w
    = (Return all, w')
  ↔ ∃ per_provider,
      discovered transport jsonschema_to_pydantic ps w per_provider w'
      ∧ all = concat per_provider.
Proof. unfold convert_mcp_to_langchain_tools. apply aggregation_from. Qed.

(** C7. When discovery succeeds for the descriptors [before] and raises
    for the next one, [convert_mcp_to_langchain_tools] raises that
    exception: the adapters found so far are not returned, and the
    descriptors after the failing one are never contacted.  So does
    [initialise_tools] when the configuration yields these descriptors. *)
Theorem aggregation_fails_fast before p after w per_provider w1 e w2 :
  discovered transport jsonschema_to_pydantic before w per_provider w1 →
  get_mcp_tools transport jsonschema_to_pydantic p w1 = (Raise e, w2) →
  convert_mcp_to_langchain_tools transport jsonschema_to_pydantic
    (before ++ p :: after) w = (Raise e, w2)
  ∧ ∀ os_environ server_config client,
      create_server_parameters (Content:=Content) os_environ server_config
        = Return (before ++ p :: after) →
      initialise_tools transport jsonschema_to_pydantic os_environ
        (Some server_config) client w = (Raise e, w2).
Proof.
  intros Hd Hp.
  assert (convert_mcp_to_langchain_tools transport jsonschema_to_pydantic
            (before ++ p :: after) w = (Raise e, w2)) as Hagg.
  { unfold convert_mcp_to_langchain_tools.
    by eapply aggregation_failure_from. }
  split; [done|].
  intros os_environ server_config client Hparams.
  unfold initialise_tools, mbind, M_bind, lift, load_server_config.
  rewrite Hparams, Hagg. reflexivity.
Qed.

(** ** Launch descriptors *)

Implicit Types (environ : gmap string string) (config : ServerEntry).

Local Arguments resolve_item : simpl never.

Lemma resolve_item_lookup environ (env : gmap string string) key value k :
  resolve_item environ env (key, value) !! k =
    if decide (k = key)
    then if String.length value =? 0
         then match environ !! key with
              | Some v => Some v
              | None => env !! key
              end
         else env !! key
    else env !! k.
Proof.
  unfold resolve_item, os_getenv.
  destruct (environ !! key) as [v|] eqn:Hv.
  - rewrite bool_decide_eq_true_2 by eauto. rewrite andb_true_r.
    destruct (String.length value =? 0); destruct (decide (k = key)) as [->|Hne];
      try done.
    + by rewrite lookup_insert_eq.
    + by rewrite lookup_insert_ne.
  - rewrite bool_decide_eq_false_2 by (by intros [? ?]). rewrite andb_false_r.
    destruct (String.length value =? 0); by destruct (decide (k = key)) as [->|Hne].
Qed.

Lemma resolve_items_absent environ items (env : gmap string string) k :
  k ∉ items.*1 → foldl (resolve_item environ) env items !! k = env !! k.
Proof.
  revert env. induction items as [|[key value] items IH]; intros env Hk; [done|].
  simpl in *. apply not_elem_of_cons in Hk as [Hne Hk].
  rewrite IH by done. rewrite resolve_item_lookup. by rewrite decide_False.
Qed.

Lemma resolve_items_present environ items (env : gmap string string) k value :
  NoDup items.*1 → (k, value) ∈ items →
  foldl (resolve_item environ) env items !! k =
    if String.length value =? 0
    then match environ !! k with
         | Some v => Some v
         | None => env !! k
         end
    else env !! k.
Proof.
  revert env. induction items as [|[key0 value0] items IH]; intros env Hnd Hin.
  { by apply elem_of_nil in Hin. }
  simpl in *. apply NoDup_cons in Hnd as [Hfresh Hnd].
  apply elem_of_cons in Hin as [[= -> ->]|Hin].
  - rewrite resolve_items_absent by done.
    rewrite resolve_item_lookup. by rewrite decide_True.
  - assert (k ≠ key0) as Hne.
    { intros ->. apply Hfresh. apply list_elem_of_fmap. by exists (key0, value). }
    rewrite IH by done. rewrite !resolve_item_lookup. by rewrite !decide_False.
Qed.

(** The loop over [env.items()] as a whole: an entry with an empty value
    takes the value of the process when there is one; no other changes. *)
Lemma resolve_env_lookup environ (env : gmap string string) k :
  resolve_env environ env !! k =
    match env !! k with
    | Some value =>
        Some (if String.length value =? 0
              then default value (environ !! k)
              else value)
    | None => None
    end.
Proof.
  unfold resolve_env. destruct (env !! k) as [value|] eqn:Hk.
  - rewrite (resolve_items_present environ _ env k value).
    + rewrite Hk. destruct (_ =? _); [|done]. by destruct (environ !! k).
    + apply NoDup_fst_map_to_list.
    + by apply elem_of_map_to_list.
  - rewrite resolve_items_absent; [done|].
    intros ([k' v] & -> & Hin%elem_of_map_to_list)%list_elem_of_fmap.
    simpl in *. congruence.
Qed.

(** The configured values are strings, so only [PATH] can be [None]. *)
Lemma strings_only (configured : gmap string string) key value :
  filter (λ item : string * option string, item.2 = None)
    (<[key := Some value]> (Some <$> configured)) = ∅.
Proof.
  apply map_empty. intros k. apply map_lookup_filter_None. right.
  intros v Hv. simpl. destruct (decide (key = k)) as [->|Hne].
  - rewrite lookup_insert_eq in Hv. by injection Hv as <-.
  - rewrite lookup_insert_ne, lookup_fmap in Hv by done.
    destruct (configured !! k); simpl in Hv; [by injection Hv as <-|done].
Qed.

Lemma none_only (configured : gmap string string) key :
  filter (λ item : string * option string, item.2 = None)
    (<[key := None]> (Some <$> configured)) = {[key := None]}.
Proof.
  apply map_eq. intros k. destruct (decide (key = k)) as [->|Hne].
  - rewrite lookup_singleton_eq. apply map_lookup_filter_Some.
    by rewrite lookup_insert_eq.
  - rewrite lookup_singleton_ne by done. apply map_lookup_filter_None. right.
    intros v Hv. simpl. rewrite lookup_insert_ne, lookup_fmap in Hv by done.
    destruct (configured !! k); simpl in Hv; [by injection Hv as <-|done].
Qed.

Lemma omap_id_Some (configured : gmap string string) :
  omap id (Some <$> configured) = configured.
Proof.
  apply map_eq. intros k. rewrite lookup_omap, lookup_fmap.
  by destruct (configured !! k).
Qed.

Lemma create_server_parameter_with_path environ path config :
  environ !! "PATH" = Some path →
  create_server_parameter (Content:=Content) environ config =
    Return {| command := cfg_command config;
              args := default [] (cfg_args config);
              env := resolve_env environ
                       (<["PATH" := path]> (default ∅ (cfg_env config))) |}.
Proof.
  intros Hpath.
  unfold create_server_parameter, new_StdioServerParameters, os_getenv.
  rewrite Hpath, strings_only, map_to_list_empty by done. simpl.
  by rewrite (omap_insert_Some _ _ _ _ path), omap_id_Some.
Qed.

Lemma create_server_parameter_without_path environ config :
  environ !! "PATH" = None →
  create_server_parameter (Content:=Content) environ config =
    Raise (ValidationError [("env.PATH", "Input should be a valid string")]).
Proof.
  intros Hpath.
  unfold create_server_parameter, new_StdioServerParameters, os_getenv.
  by rewrite Hpath, none_only, map_to_list_singleton.
Qed.

Lemma create_server_parameter_raises environ config e :
  create_server_parameter (Content:=Content) environ config = Raise e →
  environ !! "PATH" = None.
Proof.
  destruct (environ !! "PATH") as [path|] eqn:Hpath; [|done].
  by rewrite (create_server_parameter_with_path _ _ _ Hpath).
Qed.

Lemma create_server_parameters_from_returns environ configs acc result :
  create_server_parameters_from (Content:=Content) environ configs acc = Return result
  ↔ ∃ built,
      Forall2 (λ config sp, create_server_parameter (Content:=Content) environ config = Return sp)
        configs built
      ∧ result = acc ++ built.
Proof.
  revert acc. induction configs as [|config configs IH]; intros acc; simpl.
  - split.
    + intros [= <-]. exists []. split; [constructor|by rewrite app_nil_r].
    + intros (built & Hall & ->). inversion Hall; subst. by rewrite app_nil_r.
  - destruct (create_server_parameter environ config) as [sp|e] eqn:Hsp.
    + rewrite IH. split.
      * intros (built & Hall & ->). exists (sp :: built).
        split; [by constructor|by rewrite <- app_assoc].
      * intros (built & Hall & ->).
        inversion Hall as [|? sp' ? built' Hsp' Hrest]; subst.
        rewrite Hsp in Hsp'. injection Hsp' as <-.
        exists built'. split; [done|by rewrite <- app_assoc].
    + split; [done|].
      intros (built & Hall & _). inversion Hall as [|? sp' ? built' Hsp' Hrest]; subst.
      rewrite Hsp in Hsp'. discriminate.
Qed.

Lemma create_server_parameters_from_raises environ configs acc e :
  create_server_parameters_from (Content:=Content) environ configs acc = Raise e →
  environ !! "PATH" = None.
Proof.
  revert acc. induction configs as [|config configs IH]; intros acc; simpl; [done|].
  destruct (create_server_parameter environ config) as [sp|e'] eqn:Hsp.
  - apply IH.
  - intros _. by eapply create_server_parameter_raises.
Qed.

Lemma descriptors_built environ path configs :
  environ !! "PATH" = Some path →
  ∃ built,
    Forall2 (λ config sp, create_server_parameter (Content:=Content) environ config = Return sp)
      configs built.
Proof.
  intros Hpath. induction configs as [|config configs [built IH]].
  - exists []. constructor.
  - eexists (_ :: built). constructor; [|done].
    by apply create_server_parameter_with_path.
Qed.

(** C6, amended. When the process environment defines [PATH],
    [create_server_parameters] builds one launch descriptor per entry of
    [mcpServers], in order, where: the command is the configured one; the
    arguments are the configured ones, and the empty list when the entry
    has no [args]; every environment entry configured with the empty
    string whose name the process environment defines has the value of
    the process; and [PATH] has the value of the process, whatever the
    entry configures for it. *)
Theorem launch_descriptors environ path server_config :
  environ !! "PATH" = Some path →
  ∃ server_parameters,
    create_server_parameters (Content:=Content) environ server_config
      = Return server_parameters
    ∧ Forall2
        (λ config sp,
           command sp = cfg_command config
           ∧ (cfg_args config = None → args sp = [])
           ∧ (∀ configured, cfg_args config = Some configured → args sp = configured)
           ∧ (∀ key value,
                default ∅ (cfg_env config) !! key = Some "" →
                environ !! key = Some value →
                env sp !! key = Some value)
           ∧ env sp !! "PATH" = Some path)
        (mcpServers server_config).*2 server_parameters.
Proof.
  intros Hpath.
  destruct (descriptors_built environ path (mcpServers server_config).*2 Hpath)
    as [built Hall].
  exists built. split.
  { unfold create_server_parameters.
    apply create_server_parameters_from_returns. by exists built. }
  eapply Forall2_impl; [exact Hall|].
  intros config sp Hsp. cbv beta in Hsp.
  rewrite (create_server_parameter_with_path _ _ _ Hpath) in Hsp.
  injection Hsp as <-. simpl.
  split; [done|]. split; [by intros ->|]. split; [by intros configured ->|]. split.
  - intros key value Hempty Hprocess. rewrite resolve_env_lookup.
    destruct (decide (key = "PATH")) as [->|Hne].
    + rewrite lookup_insert_eq. rewrite Hpath in Hprocess. injection Hprocess as <-.
      rewrite Hpath. by destruct (_ =? _).
    + rewrite lookup_insert_ne by done. rewrite Hempty. simpl. by rewrite Hprocess.
  - rewrite resolve_env_lookup, lookup_insert_eq, Hpath. by destruct (_ =? _).
Qed.

(** C10, amended. When the process environment defines [PATH], an
    environment entry configured with the empty string whose name the
    process environment does not define is in the descriptor built for
    its server entry, with the empty string as its value: it is neither
    removed nor replaced, and [create_server_parameters] returns. *)
Theorem unresolved_entry_is_kept environ path server_config i config key :
  environ !! "PATH" = Some path →
  (mcpServers server_config).*2 !! i = Some config →
  default ∅ (cfg_env config) !! key = Some "" →
  environ !! key = None →
  ∃ server_parameters sp,
    create_server_parameters (Content:=Content) environ server_config
      = Return server_parameters
    ∧ server_parameters !! i = Some sp
    ∧ env sp !! key = Some "".
Proof.
  intros Hpath Hi Hempty Hprocess.
  destruct (descriptors_built environ path (mcpServers server_config).*2 Hpath)
    as [built Hall].
  destruct (Forall2_lookup_l _ _ _ _ _ Hall Hi) as (sp & Hsp & Hbuilt).
  exists built, sp. split.
  { unfold create_server_parameters.
    apply create_server_parameters_from_returns. by exists built. }
  split; [done|].
  rewrite (create_server_parameter_with_path _ _ _ Hpath) in Hbuilt.
  injection Hbuilt as <-. simpl. rewrite resolve_env_lookup.
  assert (key ≠ "PATH") as Hne by congruence.
  rewrite lookup_insert_ne by done. rewrite Hempty. simpl. by rewrite Hprocess.
Qed.

End Facts.

(** ** The converter *)

Section ConverterFacts.
Import SchemaConverter.

Lemma shape_nested_ind (P : shape → Prop) :
  P SString → P SNumber → P SBoolean →
  (∀ fields, Forall (λ field, P field.2) fields → P (SObject fields)) →
  (∀ items, P items → P (SArray items)) →
  (∀ construct, P (SUnsupported construct)) →
  ∀ s, P s.
Proof.
  intros Hstring Hnumber Hboolean Hobject Harray Hunsupported.
  fix IH 1. intros [| | |fields|items|construct].
  - exact Hstring.
  - exact Hnumber.
  - exact Hboolean.
  - apply Hobject. induction fields as [|field fields IHfields]; constructor.
    + apply IH.
    + exact IHfields.
  - apply Harray, IH.
  - apply Hunsupported.
Qed.

Lemma convert_fields_unsupported name required s fields construct :
  (name, required, s) ∈ fields →
  convert s = inl construct →
  ∃ construct', convert_fields convert fields = inl construct'.
Proof.
  intros Hin Hs. induction fields as [|[[n r] s'] fields IH].
  { by apply elem_of_nil in Hin. }
  simpl. apply elem_of_cons in Hin as [[= <- <- <-]|Hin].
  - rewrite Hs. eauto.
  - destruct (convert s'); [eauto|].
    destruct (IH Hin) as [construct' ->]. eauto.
Qed.

(** The converter fails exactly on the shapes that hold an unsupported
    construct, however deep. *)
Lemma convert_fails_iff s :
  (∃ construct, convert s = inl construct) ↔ contains_unsupported s.
Proof.
  split.
  - induction s as [| | |fields IH|items IH|construct] using shape_nested_ind;
      simpl; intros [c Hc]; try discriminate.
    + induction IH as [|[[n r] s] fields Hs _ IHfields]; simpl in *; [discriminate|].
      destruct (convert s) as [c'|d] eqn:Hconv.
      * eapply unsupported_field; [apply list_elem_of_here|]. apply Hs. eauto.
      * destruct (convert_fields convert fields) as [c'|ds] eqn:Hrest; [|discriminate].
        assert (contains_unsupported (SObject fields)) as Hsub by (apply IHfields; eauto).
        inversion Hsub as [|n' r' s'' ? Hin Hs''|]; subst.
        eapply unsupported_field; [apply list_elem_of_further, Hin|done].
    + apply unsupported_items, IH. destruct (convert items); [eauto|discriminate].
    + constructor.
  - induction 1 as [construct|name required s fields Hin _ [c IH]|s _ [c IH]]; simpl.
    + eauto.
    + destruct (convert_fields_unsupported _ _ _ _ _ Hin IH) as [c' ->]. eauto.
    + rewrite IH. eauto.
Qed.

(** C8. When the parameter schema of an operation holds a construct the
    converter does not support, at any depth, building the adapter raises
    [ConversionError]: [create_mcp_tool] returns no adapter, hence no
    validator that could accept what the schema rejects. *)
Theorem unsupported_schema_fails_closed {Content : Type}
    (tool_schema : @Tool schema) (server_params : StdioServerParameters) :
  contains_unsupported (SObject (inputSchema tool_schema)) →
  ∃ construct,
    create_mcp_tool (jsonschema_to_pydantic (Content:=Content))
      tool_schema server_params = Raise (ConversionError construct).
Proof.
  intros [construct Hconv]%convert_fails_iff. exists construct.
  unfold create_mcp_tool, jsonschema_to_pydantic. by rewrite Hconv.
Qed.

(** A schema of supported constructs only does get its adapter. *)
Lemma supported_schema_builds {Content : Type}
    (tool_schema : @Tool schema) (server_params : StdioServerParameters) :
  ¬ contains_unsupported (SObject (inputSchema tool_schema)) →
  is_return (create_mcp_tool (jsonschema_to_pydantic (Content:=Content))
               tool_schema server_params) = true.
Proof.
  intros Hsupported. unfold create_mcp_tool, jsonschema_to_pydantic.
  destruct (convert (SObject (inputSchema tool_schema))) as [c|d] eqn:Hconv; [|done].
  destruct Hsupported. apply convert_fails_iff. eauto.
Qed.

End ConverterFacts.

(** * The properties on the registry of four providers *)

Section Examples.
Import SchemaConverter Providers.

Abbreviation discover :=
  (get_mcp_tools registry_transport (jsonschema_to_pydantic (Content:=value))).
Abbreviation aggregate :=
  (convert_mcp_to_langchain_tools registry_transport
     (jsonschema_to_pydantic (Content:=value))).

(** [echo] called with a text returns the text, and the process it
    spawned is terminated. *)
Example echo_returns_text :
  (_arun registry_transport echo_tool [("text", VString "hi")] []).1
    = Return (VString "hi")
  ∧ open_resources
      (_arun registry_transport echo_tool [("text", VString "hi")] []).2 = [].
Proof. split; reflexivity. Qed.

(** A number where a string is expected: [invoke] fails on the field
    [text] and no process is spawned. *)
Lemma invoke_rejects_wrong_type :
  model_validate (args_schema echo_tool) [("text", VNumber 5)]
    = inl [("text", "string expected")]
  ∧ invoke registry_transport echo_tool [("text", VNumber 5)] []
    = (Raise (ValidationError [("text", "string expected")]), []).
Proof.
  split; [reflexivity|].
  apply invoke_rejects_invalid_arguments. reflexivity.
Defined.

(** C3. The provider answers a call that lacks the text with an error
    result, and the call exchange completes.  [_arun] raises
    [ToolException] with the reported content inside the two [async with]
    blocks, and what leaves [_arun] is what their exits make of it: the
    [ToolException] in an exception group, itself in an exception group.
    No [ToolException] leaves [_arun], with this content or another. *)
Theorem error_result_leaves_in_groups :
  call_completes registry_transport echo_tool [] []
    {| content := VString "text is missing"; isError := true |}
  ∧ (_arun registry_transport echo_tool [] []).1
    = Raise (task_group (task_group (ToolException (VString "text is missing"))))
  ∧ ∀ reported, (_arun registry_transport echo_tool [] []).1
                ≠ Raise (ToolException reported).
Proof.
  split; [repeat split; reflexivity|].
  assert ((_arun registry_transport echo_tool [] []).1
          = Raise (task_group (task_group
                     (ToolException (VString "text is missing"))))) as Hrun
    by reflexivity.
  split; [exact Hrun|].
  intros reported. rewrite Hrun. discriminate.
Qed.

(** The provider [echo] lists one operation and discovery returns its
    adapter. *)
Lemma echo_is_discovered :
  listing_completes registry_transport (server "echo") [] [echo_schema]
  ∧ ∃ found,
      discover (server "echo") [] = (Return found, listed_trace (server "echo") [])
      ∧ length found = 1
      ∧ name <$> found = ["echo"]
      ∧ description <$> found = ["Send the text back"].
Proof.
  assert (listing_completes registry_transport (server "echo") [] [echo_schema])
    as Hlist.
  { repeat split; reflexivity. }
  split; [exact Hlist|].
  destruct (discovery_one_adapter_per_schema registry_transport
              (jsonschema_to_pydantic (Content:=value))
              (server "echo") [] [echo_schema] Hlist)
    as (found & Hrun & Hlen & Hall).
  { repeat constructor. }
  exists found. split; [exact Hrun|]. split; [exact Hlen|].
  inversion Hall as [|? t ? found' (Hn & Hd & _) Hrest]; subst.
  inversion Hrest; subst. simpl. by rewrite Hn, Hd.
Defined.

(** The provider [exotic] lists one operation, whose schema the converter
    refuses: discovery raises, the exception of the converter leaving
    through the two exits, and returns no adapter for it. *)
Lemma discovery_aborts_on_refused_schema :
  listing_completes registry_transport (server "exotic") [] [exotic_schema]
  ∧ discover (server "exotic") []
    = (Raise (task_group (task_group (ConversionError "format"))),
       listed_trace (server "exotic") [])
  ∧ ∀ found w', discover (server "exotic") [] ≠ (Return found, w').
Proof.
  split; [repeat split; reflexivity|].
  assert (discover (server "exotic") []
          = (Raise (task_group (task_group (ConversionError "format"))),
             listed_trace (server "exotic") []))
    as Hrun by reflexivity.
  split; [exact Hrun|].
  intros found w'. rewrite Hrun. discriminate.
Qed.

(** The providers [echo] and [shout] both declare an operation named
    [echo]: the aggregate holds the two adapters, in the order of the
    list, each with its own description and descriptor. *)
Lemma colliding_names_are_both_kept :
  ∃ per_provider,
    discovered registry_transport (jsonschema_to_pydantic (Content:=value))
      [server "echo"; server "shout"] [] per_provider
      (aggregate [server "echo"; server "shout"] []).2
    ∧ [echo_tool;
       {| name := "echo";
          description := "Send the text back in capitals";
          args_schema := args_schema echo_tool;
          mcp_server_params := server "shout" |}]
      = concat per_provider.
Proof.
  apply (proj1 (aggregation_is_concatenation registry_transport
                  (jsonschema_to_pydantic (Content:=value))
                  [server "echo"; server "shout"] [] _ _)).
  reflexivity.
Defined.

(** With [missing] between them, nothing is returned: the aggregate and
    the start-up raise the launch fault, after [echo] was discovered and
    before [shout] is contacted. *)
Lemma missing_provider_aborts_startup :
  discovered registry_transport (jsonschema_to_pydantic (Content:=value))
    [server "echo"] [] [[echo_tool]] (listed_trace (server "echo") [])
  ∧ discover (server "missing") (listed_trace (server "echo") [])
    = (Raise (LibraryError "No such file or directory"),
       listed_trace (server "echo") [])
  ∧ aggregate [server "echo"; server "missing"; server "shout"] []
    = (Raise (LibraryError "No such file or directory"),
       listed_trace (server "echo") [])
  ∧ initialise_tools registry_transport (jsonschema_to_pydantic (Content:=value))
      environ_with_path (Some startup_config) "rest" []
    = (Raise (LibraryError "No such file or directory"),
       listed_trace (server "echo") []).
Proof.
  assert (discovered registry_transport (jsonschema_to_pydantic (Content:=value))
            [server "echo"] [] [[echo_tool]] (listed_trace (server "echo") []))
    as Hbefore.
  { econstructor; [reflexivity|constructor]. }
  assert (discover (server "missing") (listed_trace (server "echo") [])
          = (Raise (LibraryError "No such file or directory"),
             listed_trace (server "echo") [])) as Hmissing by reflexivity.
  split; [exact Hbefore|]. split; [exact Hmissing|].
  destruct (aggregation_fails_fast registry_transport _
              [server "echo"] (server "missing") [server "shout"]
              [] _ _ _ _ Hbefore Hmissing) as [Haggregate Hstartup].
  split; [exact Haggregate|].
  apply Hstartup. reflexivity.
Defined.

(** In a process that has a search path, the entry of [sample_config]
    gets its descriptor: [HOME], configured empty, takes the value of the
    process and [PATH] that of the process instead of the configured one. *)
Lemma sample_descriptor_is_built :
  environ_with_path !! "PATH" = Some "/usr/bin"
  ∧ ∃ server_parameters,
      create_server_parameters (Content:=value) environ_with_path sample_config
        = Return server_parameters
      ∧ Forall2
          (λ config sp,
             command sp = cfg_command config
             ∧ (cfg_args config = None → args sp = [])
             ∧ (∀ configured, cfg_args config = Some configured → args sp = configured)
             ∧ (∀ key v,
                  default ∅ (cfg_env config) !! key = Some "" →
                  environ_with_path !! key = Some v →
                  env sp !! key = Some v)
             ∧ env sp !! "PATH" = Some "/usr/bin")
          (mcpServers sample_config).*2 server_parameters.
Proof.
  split; [reflexivity|].
  apply launch_descriptors. reflexivity.
Defined.

(** In a process without a search path no descriptor is built at all. *)
Lemma no_descriptor_without_path :
  environ_without_path !! "PATH" = None
  ∧ create_server_parameters (Content:=value) environ_without_path sample_config
    = Raise (ValidationError [("env.PATH", "Input should be a valid string")])
  ∧ ∀ server_parameters,
      create_server_parameters (Content:=value) environ_without_path sample_config
        ≠ Return server_parameters.
Proof.
  split; [reflexivity|].
  assert (create_server_parameters (Content:=value) environ_without_path sample_config
          = Raise (ValidationError [("env.PATH", "Input should be a valid string")]))
    as Hrun by reflexivity.
  split; [exact Hrun|].
  intros server_parameters. rewrite Hrun. discriminate.
Qed.

(** [TOKEN] is configured empty and the process, which has a search
    path, does not define it: it stays in the descriptor, empty. *)
Lemma token_stays_empty :
  environ_with_path !! "PATH" = Some "/usr/bin"
  ∧ (mcpServers sample_config).*2 !! 0
    = Some (entry "echo" (Some {["HOME" := ""; "TOKEN" := ""; "PATH" := "/opt/bin"]}))
  ∧ environ_with_path !! "TOKEN" = None
  ∧ ∃ server_parameters sp,
      create_server_parameters (Content:=value) environ_with_path sample_config
        = Return server_parameters
      ∧ server_parameters !! 0 = Some sp
      ∧ env sp !! "TOKEN" = Some "".
Proof.
  split; [reflexivity|]. split; [reflexivity|]. split; [reflexivity|].
  apply (unresolved_entry_is_kept (Content:=value) environ_with_path "/usr/bin"
           sample_config 0
           (entry "echo" (Some {["HOME" := ""; "TOKEN" := ""; "PATH" := "/opt/bin"]}))
           "TOKEN"); reflexivity.
Defined.

(** In a process without a search path [TOKEN] is configured empty and
    not defined by the process all the same, and there is no descriptor
    for it to stay in: [create_server_parameters] raises. *)
Lemma token_has_no_descriptor_without_path :
  (mcpServers sample_config).*2 !! 0
    = Some (entry "echo" (Some {["HOME" := ""; "TOKEN" := ""; "PATH" := "/opt/bin"]}))
  ∧ default ∅ (Some ({["HOME" := ""; "TOKEN" := ""; "PATH" := "/opt/bin"]}
                       : gmap string string)) !! "TOKEN" = Some ""
  ∧ environ_without_path !! "TOKEN" = None
  ∧ ∀ server_parameters,
      create_server_parameters (Content:=value) environ_without_path sample_config
        ≠ Return server_parameters.
Proof.
  split; [reflexivity|]. split; [reflexivity|]. split; [reflexivity|].
  intros server_parameters.
  assert (create_server_parameters (Content:=value) environ_without_path sample_config
          = Raise (ValidationError [("env.PATH", "Input should be a valid string")]))
    as -> by reflexivity.
  discriminate.
Qed.

(** The schema of [remind] holds an unsupported construct: no adapter. *)
Lemma remind_gets_no_adapter :
  contains_unsupported (SObject (inputSchema exotic_schema))
  ∧ ∃ construct,
      create_mcp_tool (jsonschema_to_pydantic (Content:=value))
        exotic_schema (server "exotic") = Raise (ConversionError construct).
Proof.
  assert (contains_unsupported (SObject (inputSchema exotic_schema))) as Hschema.
  { eapply unsupported_field; [apply list_elem_of_here|constructor]. }
  split; [exact Hschema|].
  exact (unsupported_schema_fails_closed exotic_schema (server "exotic") Hschema).
Defined.

End Examples.

(** * Further properties *)

Section MoreFacts.

Context {Schema Kwargs Content : Type}.
Context (transport : @Transport Schema Kwargs Content).
Context (jsonschema_to_pydantic : Schema → @outcome Content (@BaseModel Kwargs)).

Implicit Types (w : @trace Kwargs) (p : StdioServerParameters).
Implicit Types (self : @McpTool Kwargs) (kwargs : Kwargs) (e : @exn Content).

(** ** Every way a call can go *)

Lemma arun_cases self kwargs w :
  let p := mcp_server_params self in
  _arun transport self kwargs w =
    match spawn_fault transport p w with
    | Some e => (Raise e, w)
    | None =>
    match enter_fault transport p (ProcessSpawned p :: w) with
    | Some e =>
        (Raise (channel_exit_raises transport e),
         ProcessTerminated p :: ProcessSpawned p :: w)
    | None =>
    match initialize_fault transport p
            (SessionEntered p :: ProcessSpawned p :: w) with
    | Some e =>
        (leaves_session transport (Raise e),
         ProcessTerminated p :: SessionExited p
           :: SessionEntered p :: ProcessSpawned p :: w)
    | None =>
    match call_tool_answer transport p (ready_trace p w) (name self) kwargs with
    | Raise e =>
        (leaves_session transport (Raise e),
         ProcessTerminated p :: SessionExited p :: ready_trace p w)
    | Return result =>
        (leaves_session transport
           (if isError result
            then Raise (ToolException (content result))
            else Return (content result)),
         ProcessTerminated p :: SessionExited p
           :: ToolCalled p (name self) kwargs :: ready_trace p w)
    end end end end.
Proof.
  intros p. unfold _arun, async_with, stdio_client, ClientSession; simpl.
  unfold mbind, M_bind, initialize, call_tool, guarded, raise, emit, ready_trace;
    simpl. fold p.
  destruct (spawn_fault transport p w); simpl; [done|].
  destruct (enter_fault transport p _); simpl; [done|].
  destruct (initialize_fault transport p _); simpl; [done|].
  destruct (call_tool_answer transport p _ _ _) as [result|e]; simpl; [|done].
  by destruct (isError result).
Qed.

Ltac settle :=
  solve
    [ split;
      [ intros; simplify_eq; eauto 20
      | intros; repeat match goal with
                | H : _ ∨ _ |- _ => destruct H
                | H : _ ∧ _ |- _ => destruct H
                | H : ∃ _, _ |- _ => destruct H
                end; simplify_eq; try congruence; eauto ] ].

Ltac arun_by_cases self kwargs w :=
  rewrite (arun_cases self kwargs w);
  unfold raised_during_call, launch_fault, entry_fault, handshake_fault,
    call_completes, session_ready, leaves_session; simpl;
  destruct (spawn_fault transport (mcp_server_params self) w) eqn:?; simpl;
  [|destruct (enter_fault transport (mcp_server_params self) _) eqn:?; simpl;
    [|destruct (initialize_fault transport (mcp_server_params self) _) eqn:?; simpl;
      [|destruct (call_tool_answer transport (mcp_server_params self) _ _ _)
          as [?result|?] eqn:?; simpl;
        [destruct (isError result) eqn:?|]]]].

(** X1. Every exception that leaves [_arun] is one of three: the fault
    of the launch, as it came, nothing being acquired yet; the fault of
    entering the session, as the exit of [stdio_client] raises it; or
    what was raised inside both blocks (a fault of the handshake or of
    [call_tool], or the [ToolException] of an error result), as the exit
    of [ClientSession] and then that of [stdio_client] raise it.  Each
    of these does leave, and nothing else is ever raised. *)
Theorem arun_raises_iff self kwargs w e :
  (_arun transport self kwargs w).1 = Raise e
  ↔ launch_fault transport (mcp_server_params self) w e
    ∨ (∃ inner,
         entry_fault transport (mcp_server_params self) w inner
         ∧ e = channel_exit_raises transport inner)
    ∨ (∃ inner,
         raised_during_call transport self kwargs w inner
         ∧ e = channel_exit_raises transport
                 (session_exit_raises transport inner)).
Proof. arun_by_cases self kwargs w; settle. Qed.

(** X2. [_arun] returns a value only when the whole exchange completed
    with a result that is not an error, and the value is then the content
    of that result. *)
Theorem arun_returns_iff self kwargs w c :
  (_arun transport self kwargs w).1 = Return c
  ↔ ∃ result,
      call_completes transport self kwargs w result
      ∧ isError result = false
      ∧ c = content result.
Proof. arun_by_cases self kwargs w; settle. Qed.

(** X3. Whatever happens, the calls [_arun] itself makes on the library
    are those of one session with the adapter's own provider: it spawns
    at most one process, it calls [call_tool] at most once, with the
    adapter's name and the arguments as given, it never calls
    [list_tools], and the session is exited before the process is
    terminated.  (What the library does on its own inside [call_tool] is
    not a call of [_arun] and is not in the trace.) *)
Theorem arun_talks_to_its_provider_only self kwargs w :
  ∃ new,
    (_arun transport self kwargs w).2 = new ++ w
    ∧ session_events (mcp_server_params self)
        (ToolCalled (mcp_server_params self) (name self) kwargs) new.
Proof.
  rewrite (arun_cases self kwargs w). unfold session_events, ready_trace.
  destruct (spawn_fault _ _ _); simpl.
  { exists []. eauto. }
  destruct (enter_fault _ _ _); simpl.
  { eexists [_; _]. eauto. }
  destruct (initialize_fault _ _ _); simpl.
  { eexists [_; _; _; _]. eauto 6. }
  destruct (call_tool_answer _ _ _ _ _); simpl.
  - eexists [_; _; _; _; _; _]. eauto 8.
  - eexists [_; _; _; _; _]. eauto 8.
Qed.

(** ** Every way a discovery can go *)

Lemma adapters_loop_returns p schemas acc w built w' :
  for_each (append_adapter jsonschema_to_pydantic p) schemas acc w
    = (Return built, w')
  ↔ ∃ found,
      Forall2 (λ s t, create_mcp_tool jsonschema_to_pydantic s p = Return t)
        schemas found
      ∧ built = acc ++ found ∧ w' = w.
Proof.
  revert acc. induction schemas as [|s schemas IH]; intros acc.
  - simpl. split.
    + intros [= <- <-]. exists []. by rewrite app_nil_r.
    + intros (found & Hall & -> & ->). inversion Hall. by rewrite app_nil_r.
  - rewrite for_each_cons. unfold append_adapter at 1, mbind, M_bind, lift.
    destruct (create_mcp_tool _ s p) as [t|e] eqn:Hs; simpl.
    + rewrite IH. split.
      * intros (found & Hall & -> & ->). exists (t :: found).
        split; [by constructor|]. by rewrite <- app_assoc.
      * intros (found & Hall & -> & ->).
        inversion Hall as [|? t' ? found' Ht Hrest]; subst.
        rewrite Hs in Ht. injection Ht as <-.
        exists found'. split; [done|]. by rewrite <- app_assoc.
    + split; [done|]. intros (found & Hall & _).
      inversion Hall as [|? t' ? found' Ht Hrest]; subst. congruence.
Qed.

Lemma adapters_loop_raises p schemas acc w e w' :
  for_each (append_adapter jsonschema_to_pydantic p) schemas acc w
    = (Raise e, w')
  ↔ ∃ before s after found,
      schemas = before ++ s :: after
      ∧ Forall2 (λ s t, create_mcp_tool jsonschema_to_pydantic s p = Return t)
          before found
      ∧ create_mcp_tool jsonschema_to_pydantic s p = Raise e
      ∧ w' = w.
Proof.
  split.
  - revert acc. induction schemas as [|s schemas IH]; intros acc; [done|].
    rewrite for_each_cons. unfold append_adapter at 1, mbind, M_bind, lift.
    destruct (create_mcp_tool _ s p) as [t|e'] eqn:Hs; simpl.
    + intros (before & s' & after & found & -> & Hall & Hs' & ->)%IH.
      exists (s :: before), s', after, (t :: found).
      split; [done|]. split; [by constructor|done].
    + intros [= -> <-]. exists [], s, schemas, [].
      split; [done|]. split; [constructor|done].
  - intros (before & s & after & found & -> & Hall & Hs & ->).
    by eapply adapters_first_failure.
Qed.

Lemma get_mcp_tools_cases p w :
  get_mcp_tools transport jsonschema_to_pydantic p w =
    match spawn_fault transport p w with
    | Some e => (Raise e, w)
    | None =>
    match enter_fault transport p (ProcessSpawned p :: w) with
    | Some e =>
        (Raise (channel_exit_raises transport e),
         ProcessTerminated p :: ProcessSpawned p :: w)
    | None =>
    match initialize_fault transport p
            (SessionEntered p :: ProcessSpawned p :: w) with
    | Some e =>
        (leaves_session transport (Raise e),
         ProcessTerminated p :: SessionExited p
           :: SessionEntered p :: ProcessSpawned p :: w)
    | None =>
    match list_tools_answer transport p (ready_trace p w) with
    | Raise e =>
        (leaves_session transport (Raise e),
         ProcessTerminated p :: SessionExited p :: ready_trace p w)
    | Return schemas =>
        (leaves_session transport
           (for_each (append_adapter jsonschema_to_pydantic p) schemas []
              (ToolsListed p :: ready_trace p w)).1,
         listed_trace p w)
    end end end end.
Proof.
  unfold get_mcp_tools, async_with, stdio_client, ClientSession; simpl.
  unfold mbind at 1 2 3, M_bind at 1 2 3, initialize, guarded, raise, emit,
    ready_trace, listed_trace; simpl.
  destruct (spawn_fault transport p w); simpl; [done|].
  destruct (enter_fault transport p _); simpl; [done|].
  destruct (initialize_fault transport p _); simpl; [done|].
  unfold mbind, M_bind, list_tools.
  destruct (list_tools_answer transport p _) as [schemas|e]; simpl; [|done].
  pose proof (adapters_loop_trace jsonschema_to_pydantic p schemas []
                (ToolsListed p :: Initialized p :: SessionEntered p
                   :: ProcessSpawned p :: w)) as Htrace.
  destruct (for_each _ schemas [] _) as [[r|e] w']; simpl in *; by subst.
Qed.

Ltac discovery_by_cases p w :=
  rewrite (get_mcp_tools_cases p w);
  unfold listing_completes, session_ready, leaves_session; simpl;
  destruct (spawn_fault transport p w) eqn:?; simpl;
  [|destruct (enter_fault transport p _) eqn:?; simpl;
    [|destruct (initialize_fault transport p _) eqn:?; simpl;
      [|destruct (list_tools_answer transport p _) as [?schemas|?] eqn:?; simpl]]].

(** X4. [get_mcp_tools] returns adapters only when launch, session,
    handshake and listing all succeeded and every listed schema got its
    adapter; the adapters are then those of the listed schemas, one each
    and in order, and the session has been closed. *)
Theorem get_mcp_tools_returns_iff p w found w' :
  get_mcp_tools transport jsonschema_to_pydantic p w = (Return found, w')
  ↔ ∃ schemas,
      listing_completes transport p w schemas
      ∧ Forall2 (λ s t, create_mcp_tool jsonschema_to_pydantic s p = Return t)
          schemas found
      ∧ w' = listed_trace p w.
Proof.
  discovery_by_cases p w; try settle.
  destruct (for_each _ schemas [] _) as [[built|e] w1] eqn:Hloop; simpl.
  - destruct (proj1 (adapters_loop_returns _ _ _ _ _ _) Hloop)
      as (found' & Hall & -> & ->). simpl.
    split.
    + intros [= <- <-]. exists schemas. repeat split; done.
    + intros (schemas' & (_ & [= <-]) & Hall' & ->).
      f_equal. f_equal.
      clear -Hall Hall'. revert found Hall'.
      induction Hall as [|s t schemas found' Ht _ IH]; intros found Hall';
        inversion Hall' as [|? t' ? found'' Ht' Hrest]; subst; [done|].
      rewrite Ht in Ht'. injection Ht' as <-. f_equal. by apply IH.
  - destruct (proj1 (adapters_loop_raises _ _ _ _ _ _) Hloop)
      as (before & s & after & found' & -> & Hall & Hs & ->).
    split; [done|].
    intros (schemas' & (_ & [= <-]) & Hall' & _).
    apply Forall2_app_inv_l in Hall' as (f1 & f2 & _ & Hbad & _).
    inversion Hbad; subst. congruence.
Qed.

(** X5. Every exception that leaves [get_mcp_tools] is one of three:
    the fault of the launch, as it came; the fault of entering the
    session, as the exit of [stdio_client] raises it; or what was raised
    inside both blocks (a fault of the handshake or of [list_tools], or
    the exception of the converter on the first listed schema it
    refuses), as the exit of [ClientSession] and then that of
    [stdio_client] raise it.  Each of these does leave, and nothing else
    is ever raised. *)
Theorem get_mcp_tools_raises_iff p w e :
  (get_mcp_tools transport jsonschema_to_pydantic p w).1 = Raise e
  ↔ launch_fault transport p w e
    ∨ (∃ inner,
         entry_fault transport p w inner
         ∧ e = channel_exit_raises transport inner)
    ∨ (∃ inner,
         raised_during_listing transport jsonschema_to_pydantic p w inner
         ∧ e = channel_exit_raises transport
                 (session_exit_raises transport inner)).
Proof.
  unfold launch_fault, entry_fault, raised_during_listing, handshake_fault.
  split.
  - rewrite get_mcp_tools_cases. unfold leaves_session.
    destruct (spawn_fault transport p w) eqn:Hspawn; simpl.
    { intros [= <-]. by left. }
    destruct (enter_fault transport p _) eqn:Henter; simpl.
    { intros [= <-]. right. left. by eexists. }
    destruct (initialize_fault transport p _) eqn:Hinit; simpl.
    { intros [= <-]. right. right. eexists. split; [by left|done]. }
    destruct (list_tools_answer transport p _) as [schemas|e0] eqn:Hlist; simpl.
    2: { intros [= <-]. right. right. eexists. split; [|done].
         right. left. by repeat split. }
    destruct (for_each _ schemas [] _) as [[built|e'] w1] eqn:Hloop; simpl;
      [done|].
    intros [= <-].
    destruct (proj1 (adapters_loop_raises _ _ _ _ _ _) Hloop)
      as (before & s & after & found & -> & Hall & Hs & ->).
    right. right. exists e'. split; [|done].
    right. right. exists before, s, after, found.
    split; [by repeat split|]. split; [done|].
    unfold create_mcp_tool in Hs.
    destruct (jsonschema_to_pydantic (inputSchema s)); congruence.
  - intros [Hlaunch
           |[(inner & [Hspawn Henter] & ->)
            |(inner & [(Hspawn & Henter & Hinit)
                      |[[(Hspawn & Henter & Hinit) Hlist]
                       |(before & s & after & found & Hlist & Hall & Hs)]] & ->)]].
    + rewrite get_mcp_tools_cases. by rewrite Hlaunch.
    + rewrite get_mcp_tools_cases. by rewrite Hspawn, Henter.
    + rewrite get_mcp_tools_cases. by rewrite Hspawn, Henter, Hinit.
    + rewrite get_mcp_tools_cases. unfold ready_trace in Hlist.
      unfold ready_trace. by rewrite Hspawn, Henter, Hinit, Hlist.
    + by rewrite (get_mcp_tools_conversion_failure _ _ _ _ _ _ _ _ _ Hlist Hall Hs).
Qed.

(** X6. Whatever happens, the events a discovery adds to the trace are
    those of one session with the provider asked: at most one process is
    spawned, the catalogue is listed at most once, no operation is ever
    called, and the session is exited before the process is terminated. *)
Theorem get_mcp_tools_only_lists p w :
  ∃ new,
    (get_mcp_tools transport jsonschema_to_pydantic p w).2 = new ++ w
    ∧ session_events p (ToolsListed p) new.
Proof.
  rewrite (get_mcp_tools_cases p w). unfold session_events, listed_trace, ready_trace.
  destruct (spawn_fault _ _ _); simpl.
  { exists []. eauto. }
  destruct (enter_fault _ _ _); simpl.
  { eexists [_; _]. eauto. }
  destruct (initialize_fault _ _ _); simpl.
  { eexists [_; _; _; _]. eauto 6. }
  destruct (list_tools_answer _ _ _); simpl.
  - eexists [_; _; _; _; _; _]. eauto 8.
  - eexists [_; _; _; _; _]. eauto 8.
Qed.

(** ** Aggregation *)

Lemma released_refl w : released w w.
Proof. by exists []. Qed.

Lemma released_trans w w1 w2 :
  released w w1 → released w1 w2 → released w w2.
Proof.
  intros (new1 & -> & Hopen1 & Hs1 & He1) (new2 & -> & Hopen2 & Hs2 & He2).
  exists (new2 ++ new1). split; [by rewrite app_assoc|].
  split; [congruence|]. rewrite !occurrences_app. lia.
Qed.

Lemma for_each_app {A S} (body : S → A → @M Kwargs Content S) xs ys acc w :
  for_each body (xs ++ ys) acc w =
    match for_each body xs acc w with
    | (Return acc', w1) => for_each body ys acc' w1
    | (Raise e, w1) => (Raise e, w1)
    end.
Proof.
  revert acc w. induction xs as [|x xs IH]; intros acc w; [done|].
  simpl app. rewrite !for_each_cons.
  destruct (body acc x w) as [[acc'|e] w1]; [apply IH|done].
Qed.

(** Starting the loop of the aggregation with adapters already collected
    only puts them in front. *)
Lemma extend_tools_shift ps acc w :
  for_each (extend_tools transport jsonschema_to_pydantic) ps acc w =
    match for_each (extend_tools transport jsonschema_to_pydantic) ps [] w with
    | (Return found, w1) => (Return (acc ++ found), w1)
    | (Raise e, w1) => (Raise e, w1)
    end.
Proof.
  revert acc w. induction ps as [|p ps IH]; intros acc w.
  - simpl. by rewrite app_nil_r.
  - rewrite !for_each_cons, !extend_tools_eq.
    destruct (get_mcp_tools _ _ p w) as [[found|e] w1]; [|done].
    rewrite (IH (acc ++ found)), (IH ([] ++ found)).
    destruct (for_each _ ps [] w1) as [[rest|e] w2]; [|done].
    by rewrite app_assoc.
Qed.

(** X7. Aggregating a registry made of two parts is aggregating the
    first part, then the second part from where the first one left the
    trace, and putting the two collections one after the other; a failure
    in the first part means the second part is never contacted. *)
Theorem aggregation_of_two_registries ps1 ps2 w :
  convert_mcp_to_langchain_tools transport jsonschema_to_pydantic (ps1 ++ ps2) w =
    match convert_mcp_to_langchain_tools transport jsonschema_to_pydantic ps1 w with
    | (Return found1, w1) =>
        match convert_mcp_to_langchain_tools transport jsonschema_to_pydantic
                ps2 w1 with
        | (Return found2, w2) => (Return (found1 ++ found2), w2)
        | (Raise e, w2) => (Raise e, w2)
        end
    | (Raise e, w1) => (Raise e, w1)
    end.
Proof.
  unfold convert_mcp_to_langchain_tools. rewrite for_each_app.
  destruct (for_each _ ps1 [] w) as [[found1|e] w1]; [|done].
  apply extend_tools_shift.
Qed.

Lemma aggregation_released_from ps acc w :
  released w
    (for_each (extend_tools transport jsonschema_to_pydantic) ps acc w).2.
Proof.
  revert acc w. induction ps as [|p ps IH]; intros acc w.
  - apply released_refl.
  - rewrite for_each_cons, extend_tools_eq.
    pose proof (get_mcp_tools_released transport jsonschema_to_pydantic p w)
      as Hp.
    destruct (get_mcp_tools _ _ p w) as [[found|e] w1]; simpl in *; [|done].
    eapply released_trans; [exact Hp|apply IH].
Qed.

(** X8. Whether the aggregation returns or raises, and wherever it
    stops, every process it spawned has been terminated and every session
    it entered has been exited by the time it ends. *)
Theorem aggregation_leaves_nothing_open ps w :
  released w
    (convert_mcp_to_langchain_tools transport jsonschema_to_pydantic ps w).2.
Proof. apply aggregation_released_from. Qed.

(** X9. The start-up too leaves nothing open, however it ends: without
    a configuration file or without descriptors it contacts no provider
    at all, and otherwise it leaves what the aggregation leaves. *)
Theorem startup_leaves_nothing_open os_environ config_file client w :
  released w
    (initialise_tools transport jsonschema_to_pydantic os_environ config_file
       client w).2.
Proof.
  unfold initialise_tools, mbind, M_bind, lift, load_server_config.
  destruct config_file as [server_config|]; [|apply released_refl].
  destruct (create_server_parameters os_environ server_config) as [ps|e];
    [|apply released_refl].
  pose proof (aggregation_released_from ps [] w) as Hagg.
  unfold convert_mcp_to_langchain_tools.
  by destruct (for_each _ ps [] w) as [[found|e] w1].
Qed.

Lemma get_mcp_tools_returns_inv p w found w' :
  get_mcp_tools transport jsonschema_to_pydantic p w = (Return found, w') →
  w' = listed_trace p w ∧ Forall (λ t, mcp_server_params t = p) found.
Proof.
  rewrite get_mcp_tools_cases.
  destruct (spawn_fault _ _ _); [done|].
  destruct (enter_fault _ _ _); [done|].
  destruct (initialize_fault _ _ _); [done|].
  destruct (list_tools_answer _ _ _) as [schemas|e]; [|done].
  destruct (for_each _ schemas [] _) as [[built|e] w1] eqn:Hloop; [|done].
  simpl. intros [= <- <-]. split; [done|].
  destruct (proj1 (adapters_loop_returns _ _ _ _ _ _) Hloop)
    as (found & Hall & -> & _). simpl.
  clear Hloop. induction Hall as [|s t schemas found Ht _ IH]; constructor; [|done].
  by apply create_mcp_tool_returns in Ht as (_ & _ & _ & ?).
Qed.

(** X10. When the aggregation returns, it has held exactly one session
    per descriptor of the registry: as many processes spawned, and as
    many terminated, and as many listings as there are descriptors, and
    not one operation called. *)
Theorem aggregation_one_session_per_provider ps w all w' :
  convert_mcp_to_langchain_tools transport jsonschema_to_pydantic ps w
    = (Return all, w') →
  ∃ new,
    w' = new ++ w
    ∧ occurrences is_spawned new = length ps
    ∧ occurrences is_terminated new = length ps
    ∧ occurrences is_listing new = length ps
    ∧ occurrences is_call new = 0.
Proof.
  intros (per & Hd & _)%aggregation_from. clear all.
  induction Hd as [w|p ps w found w1 rest w2 Hp _ (new & -> & Hs & Ht & Hl & Hc)].
  - by exists [].
  - apply get_mcp_tools_returns_inv in Hp as [-> _].
    exists (new ++ [ProcessTerminated p; SessionExited p; ToolsListed p;
                    Initialized p; SessionEntered p; ProcessSpawned p]).
    split; [by rewrite <- app_assoc|].
    rewrite !occurrences_app. simpl. lia.
Qed.

(** X11. Every adapter the aggregation returns reconnects through a
    descriptor of the registry it was given. *)
Theorem aggregated_adapters_belong_to_registry ps w all w' :
  convert_mcp_to_langchain_tools transport jsonschema_to_pydantic ps w
    = (Return all, w') →
  Forall (λ t, mcp_server_params t ∈ ps) all.
Proof.
  intros (per & Hd & ->)%aggregation_from. simpl.
  induction Hd as [w|p ps w found w1 rest w2 Hp _ IH]; simpl; [constructor|].
  apply Forall_app. split.
  - apply get_mcp_tools_returns_inv in Hp as [_ Hfound].
    eapply Forall_impl; [exact Hfound|]. intros t ->. apply list_elem_of_here.
  - eapply Forall_impl; [exact IH|]. intros t Ht. by apply list_elem_of_further.
Qed.

(** ** Launch descriptors *)

Implicit Types (environ : gmap string string) (config : ServerEntry).

Lemma descriptor_env_lookup environ config sp key :
  create_server_parameter (Content:=Content) environ config = Return sp →
  ∃ path,
    environ !! "PATH" = Some path
    ∧ env sp !! key =
        match <["PATH" := path]> (default ∅ (cfg_env config)) !! key with
        | Some value =>
            Some (if String.length value =? 0
                  then default value (environ !! key)
                  else value)
        | None => None
        end.
Proof.
  intros Hsp. destruct (environ !! "PATH") as [path|] eqn:Hpath.
  - rewrite (create_server_parameter_with_path _ _ _ Hpath) in Hsp.
    injection Hsp as <-. exists path. split; [done|]. simpl.
    apply resolve_env_lookup.
  - by rewrite (create_server_parameter_without_path _ _ Hpath) in Hsp.
Qed.

(** X13. The variables of a descriptor are the configured ones and
    [PATH], no more and no less: resolving the empty values neither drops
    a configured variable nor lets another variable of the process in. *)
Theorem descriptor_variables environ server_config server_parameters :
  create_server_parameters (Content:=Content) environ server_config
    = Return server_parameters →
  Forall2
    (λ config sp, dom (env sp) = {["PATH"]} ∪ dom (default ∅ (cfg_env config)))
    (mcpServers server_config).*2 server_parameters.
Proof.
  unfold create_server_parameters.
  intros (built & Hall & ->)%create_server_parameters_from_returns. simpl.
  eapply Forall2_impl; [exact Hall|]. intros config sp Hsp. cbv beta in Hsp.
  apply set_eq. intros key.
  destruct (descriptor_env_lookup _ _ _ key Hsp) as (path & _ & Hkey).
  rewrite elem_of_union, elem_of_singleton, !elem_of_dom, Hkey.
  destruct (decide (key = "PATH")) as [->|Hne].
  - rewrite lookup_insert_eq. split; [by left|by eexists].
  - rewrite lookup_insert_ne by done.
    destruct (default ∅ (cfg_env config) !! key) as [value|]; split.
    + intros _. right. by eexists.
    + intros _. by eexists.
    + by intros [? ?].
    + by intros [?|[? ?]].
Qed.

Lemma length_zero_empty (value : string) :
  String.length value = 0 → value = "".
Proof. by destruct value. Qed.

(** X14. A variable configured with a value that is not empty, other
    than [PATH], keeps that value in the descriptor, even when the process
    environment defines the same variable with another value. *)
Theorem configured_values_are_kept environ server_config server_parameters :
  create_server_parameters (Content:=Content) environ server_config
    = Return server_parameters →
  Forall2
    (λ config sp,
       ∀ key value,
         key ≠ "PATH" →
         default ∅ (cfg_env config) !! key = Some value →
         value ≠ "" →
         env sp !! key = Some value)
    (mcpServers server_config).*2 server_parameters.
Proof.
  unfold create_server_parameters.
  intros (built & Hall & ->)%create_server_parameters_from_returns. simpl.
  eapply Forall2_impl; [exact Hall|]. intros config sp Hsp. cbv beta in Hsp.
  intros key value Hne Hconfigured Hvalue.
  destruct (descriptor_env_lookup _ _ _ key Hsp) as (path & _ & ->).
  rewrite lookup_insert_ne, Hconfigured by done.
  destruct (String.length value =? 0) eqn:Hlen; [|done].
  apply Nat.eqb_eq, length_zero_empty in Hlen. done.
Qed.

(** X15. Resolving the empty values of an environment a second time
    changes nothing. *)
Theorem resolve_env_idempotent environ (configured : gmap string string) :
  resolve_env environ (resolve_env environ configured)
    = resolve_env environ configured.
Proof.
  apply map_eq. intros key. rewrite !resolve_env_lookup.
  destruct (configured !! key) as [value|]; [|done]. f_equal.
  destruct (String.length value =? 0) eqn:Hlen; [|by rewrite Hlen].
  destruct (environ !! key) as [v|]; simpl; [|by rewrite Hlen].
  by destruct (String.length v =? 0).
Qed.

(** ** Start-up *)

(** X17. When the configuration file is missing, or when it registers a
    server while the process has no [PATH], the start-up raises without
    having contacted any provider: the trace is left as it was. *)
Theorem startup_aborts_before_contact os_environ config_file client w :
  config_file = None
  ∨ (∃ server_config,
       config_file = Some server_config
       ∧ os_environ !! "PATH" = None
       ∧ mcpServers server_config ≠ []) →
  ∃ e,
    initialise_tools transport jsonschema_to_pydantic os_environ config_file
      client w = (Raise e, w).
Proof.
  unfold initialise_tools, mbind, M_bind, lift, load_server_config.
  intros [->|(server_config & -> & Hpath & Hservers)]; [by eexists|].
  unfold create_server_parameters.
  destruct (mcpServers server_config) as [|[n config] rest]; [done|].
  simpl. rewrite (create_server_parameter_without_path _ _ Hpath). by eexists.
Qed.

(** X18. The arguments for the model carry an API key exactly when the
    [llm] section configures one that is not the empty string, and it is
    that key: an empty key is treated as no key. *)
Theorem api_key_is_passed_iff_not_empty llm_config key :
  init_api_key (initialize_model llm_config) = Some key
  ↔ llm_api_key llm_config = Some key ∧ key ≠ "".
Proof.
  unfold initialize_model. simpl.
  destruct (llm_api_key llm_config) as [k|]; [|by split; [|intros [? _]]].
  destruct (String.length k =? 0) eqn:Hlen.
  - apply Nat.eqb_eq, length_zero_empty in Hlen as ->.
    split; [done|]. by intros [[= <-] ?].
  - split.
    + intros [= <-]. split; [done|]. by intros ->.
    + by intros [[= <-] _].
Qed.

End MoreFacts.

(** * The further properties on the registry *)

Section MoreExamples.
Import SchemaConverter Providers Fixtures.

Abbreviation aggregate_all :=
  (convert_mcp_to_langchain_tools registry_transport
     (jsonschema_to_pydantic (Content:=value))).

(** Aggregating [echo] and [shout] takes two sessions and no call. *)
Lemma two_providers_two_sessions :
  aggregate_all [server "echo"; server "shout"] []
    = (Return [echo_tool; shout_tool],
       (aggregate_all [server "echo"; server "shout"] []).2)
  ∧ ∃ new,
      (aggregate_all [server "echo"; server "shout"] []).2 = new ++ []
      ∧ occurrences is_spawned new = 2
      ∧ occurrences is_terminated new = 2
      ∧ occurrences is_listing new = 2
      ∧ occurrences is_call new = 0.
Proof.
  assert (aggregate_all [server "echo"; server "shout"] []
          = (Return [echo_tool; shout_tool],
             (aggregate_all [server "echo"; server "shout"] []).2)) as Hrun
    by reflexivity.
  split; [exact Hrun|].
  exact (aggregation_one_session_per_provider registry_transport _ _ _ _ _ Hrun).
Defined.

(** The two adapters reconnect through [echo] and [shout]. *)
Lemma two_adapters_of_the_registry :
  aggregate_all [server "echo"; server "shout"] []
    = (Return [echo_tool; shout_tool],
       (aggregate_all [server "echo"; server "shout"] []).2)
  ∧ Forall (λ t, mcp_server_params t ∈ [server "echo"; server "shout"])
      [echo_tool; shout_tool].
Proof.
  assert (aggregate_all [server "echo"; server "shout"] []
          = (Return [echo_tool; shout_tool],
             (aggregate_all [server "echo"; server "shout"] []).2)) as Hrun
    by reflexivity.
  split; [exact Hrun|].
  exact (aggregated_adapters_belong_to_registry registry_transport _ _ _ _ _ Hrun).
Defined.

(** The descriptor of [pinned_config] has [HOME], [LANG] and [PATH]. *)
Lemma pinned_descriptor_variables :
  create_server_parameters (Content:=value) environ_with_path pinned_config
    = Return [pinned_descriptor]
  ∧ Forall2
      (λ config sp, dom (env sp) = {["PATH"]} ∪ dom (default ∅ (cfg_env config)))
      (mcpServers pinned_config).*2 [pinned_descriptor].
Proof.
  assert (create_server_parameters (Content:=value) environ_with_path pinned_config
          = Return [pinned_descriptor]) as Hrun by reflexivity.
  split; [exact Hrun|].
  exact (descriptor_variables environ_with_path pinned_config _ Hrun).
Defined.

(** [HOME] is pinned to [/srv]: the [/root] of the process does not
    replace it. *)
Lemma pinned_home_is_kept :
  create_server_parameters (Content:=value) environ_with_path pinned_config
    = Return [pinned_descriptor]
  ∧ environ_with_path !! "HOME" = Some "/root"
  ∧ Forall2
      (λ config sp,
         ∀ key v,
           key ≠ "PATH" →
           default ∅ (cfg_env config) !! key = Some v →
           v ≠ "" →
           env sp !! key = Some v)
      (mcpServers pinned_config).*2 [pinned_descriptor].
Proof.
  assert (create_server_parameters (Content:=value) environ_with_path pinned_config
          = Return [pinned_descriptor]) as Hrun by reflexivity.
  split; [exact Hrun|]. split; [reflexivity|].
  exact (configured_values_are_kept environ_with_path pinned_config _ Hrun).
Defined.

(** Without a configuration file nothing is spawned. *)
Lemma no_file_no_contact :
  (@None ServerConfig = None
   ∨ ∃ server_config,
       None = Some server_config
       ∧ environ_with_path !! "PATH" = None
       ∧ mcpServers server_config ≠ [])
  ∧ ∃ e,
      initialise_tools registry_transport (jsonschema_to_pydantic (Content:=value))
        environ_with_path None "rest" [] = (Raise e, []).
Proof.
  assert (@None ServerConfig = None
          ∨ ∃ server_config,
              None = Some server_config
              ∧ environ_with_path !! "PATH" = None
              ∧ mcpServers server_config ≠ []) as Hnone by (left; reflexivity).
  split; [exact Hnone|].
  exact (startup_aborts_before_contact registry_transport _ environ_with_path
           None "rest" [] Hnone).
Defined.

End MoreExamples.
